(** * The server-sent-events demo: stream endpoint and its React consumer

    A shallow embedding of the two pieces of the repository that have a
    life cycle of their own:

    - [registerRoutes], the Express handler of [GET /api/events], which
      writes a [connected] frame, starts two [setInterval] timers
      (a counter every 1000 ms, a random number every 2000 ms) and
      clears both when the request emits [close];
    - [ServerSentEventsDemo], the React page that opens an [EventSource]
      on that endpoint and mirrors the payloads in its view state.

    JavaScript runs each callback to completion on one event loop, so a
    callback is one atomic transition of the model; the loop itself is a
    scheduler that picks any enabled callback (a request, an active
    timer, the close notification of an open request).  Wall-clock time is
    abstracted: every timed schedule is one of the schedules considered
    here. *)

From Stdlib Require Import ZArith String Ascii List Lia Bool.
From Stdlib Require Import Floats.SpecFloat.
From Stdlib Require Import DecimalString DecimalPos DecimalFacts.
From stdpp Require Import gmap strings list.

Set Warnings "-register-all".
Local Open Scope Z_scope.

(** ** JavaScript numbers *)

Module JsNumber.

(** A Number is an IEEE-754 binary64 value. *)
Definition prec : Z := 53.
Definition emax : Z := 1024.

Definition mul : spec_float -> spec_float -> spec_float := SFmul prec emax.
Definition add : spec_float -> spec_float -> spec_float := SFadd prec emax.

(** The Number whose value is the integer [z] (rounded when it does not
    fit 53 bits). *)
Definition of_Z (z : Z) : spec_float := binary_normalize prec emax z 0 false.

(** Integers up to [MAX_EXACT] in magnitude are represented exactly and
    are carried as [Z] below. *)
Definition MAX_EXACT : Z := 2 ^ 53.

(** [x++] on an integer-valued Number [x >= 0]: exact below [2^53]; at
    [2^53] the sum [2^53 + 1] is a tie between [2^53] and [2^53 + 2]
    and rounds to the even mantissa, [2^53] itself. That this is [add]
    of the Number 1 is [JsNumberFacts.incr_is_add]. *)
Definition incr (x : Z) : Z := if x <? MAX_EXACT then x + 1 else x.

(** [Math.floor] for a Number, as an integer; [None] stands for the
    results that are not integers (NaN, +Infinity, -Infinity). *)
Definition floor (x : spec_float) : option Z :=
  match x with
  | S754_zero _ => Some 0
  | S754_finite s m e =>
      let q := if 0 <=? e then Z.pos m * 2 ^ e else Z.pos m / 2 ^ (- e) in
      let exact := if 0 <=? e then true else Z.pos m mod 2 ^ (- e) =? 0 in
      Some (if s then (if exact then - q else - q - 1) else q)
  | S754_infinity _ | S754_nan => None
  end.

(** What [Math.random()] may return: a binary64 value [x] with
    [+0 <= x < 1]. A positive canonical value [m * 2^e] is below 1
    exactly when its bit length plus [e] is not positive. *)
Definition is_random (x : spec_float) : bool :=
  match x with
  | S754_zero s => negb s
  | S754_finite s m e =>
      negb s && bounded prec emax m e && (Z.pos (digits2_pos m) + e <=? 0)
  | _ => false
  end.

(** [Number::toString] on an integer below [10^21]: plain decimal digits,
    with a minus sign for negatives. *)
Definition toString (z : Z) : string := NilZero.string_of_int (Z.to_int z).

End JsNumber.

(** ** Text *)

Definition LF : string := String (ascii_of_nat 10) EmptyString.
Definition DQUOTE : string := String (ascii_of_nat 34) EmptyString.

Definition hex_digit (n : nat) : ascii :=
  nth n (list_ascii_of_string "0123456789abcdef") "0"%char.

(** The values the server serializes: the object literals of the handler
    hold a string or an integer-valued Number; a Number that is not
    finite is rendered [null]. *)
Inductive JsonValue :=
  | JString (s : string)
  | JInteger (z : Z)
  | JNull
  | JObject (fields : list (string * JsonValue)).

Module JSON.

(** [QuoteJSONString]: a double quote and a backslash are escaped, the
    control characters below U+0020 get their short escape or a
    [\u00XX] escape, every other character stands for itself. *)
Definition quote_char (c : ascii) : string :=
  let n := nat_of_ascii c in
  if Nat.eqb n 34 then "\" +:+ DQUOTE
  else if Nat.eqb n 92 then "\\"
  else if Nat.eqb n 8 then "\b"
  else if Nat.eqb n 12 then "\f"
  else if Nat.eqb n 10 then "\n"
  else if Nat.eqb n 13 then "\r"
  else if Nat.eqb n 9 then "\t"
  else if Nat.ltb n 32 then
    "\u00" +:+ String (hex_digit (Nat.div n 16)) (String (hex_digit (Nat.modulo n 16)) EmptyString)
  else String c EmptyString.

Fixpoint quote_body (s : string) : string :=
  match s with
  | EmptyString => EmptyString
  | String c s' => quote_char c +:+ quote_body s'
  end.

Definition quote (s : string) : string := DQUOTE +:+ quote_body s +:+ DQUOTE.

(** [JSON.stringify] without indentation: members are joined by commas,
    a member is its quoted key, a colon and its value. *)
Fixpoint stringify (v : JsonValue) : string :=
  match v with
  | JString s => quote s
  | JInteger z => JsNumber.toString z
  | JNull => "null"
  | JObject fields =>
      let member (kv : string * JsonValue) : string :=
        quote (fst kv) +:+ ":" +:+ stringify (snd kv) in
      "{" +:+ String.concat "," (map member fields) +:+ "}"
  end.

End JSON.

(** ** The stream endpoint, [GET /api/events] *)

Module Server.

(** The response object, as far as this code acts on it: the headers it
    has set, under the names it gives them, and the chunks passed to
    [res.write], oldest first. What the framework has put on the
    response before the handler runs is not part of it. *)
Record Response := mkResponse {
  headers : gmap string string;
  body : list string
}.

Definition setHeader (name value : string) (res : Response) : Response :=
  mkResponse (<[name := value]> (headers res)) (body res).

Definition write (chunk : string) (res : Response) : Response :=
  mkResponse (headers res) (body res ++ [chunk]).

(** The two closures given to [setInterval]; each captures the variables
    of one invocation of the handler, named here by its request. *)
Inductive Callback :=
  | counterTick (rq : nat)
  | randomTick (rq : nat).

Record Timer := mkTimer {
  callback : Callback;
  delay : Z
}.

(** The variables of one invocation of the handler: [res], [counter],
    the two timer handles, and whether the request has emitted
    [close]. *)
Record Connection := mkConnection {
  res : Response;
  counter : Z;
  counterInterval : nat;
  randomInterval : nat;
  closed : bool
}.

(** The process: the live closures by request, the active timers by
    handle, and the next handle [setInterval] returns. *)
Record State := mkState {
  conns : gmap nat Connection;
  timers : gmap nat Timer;
  nextTimer : nat
}.

Definition init : State := mkState ∅ ∅ 0%nat.

Definition setInterval (cb : Callback) (ms : Z) (s : State) : nat * State :=
  (nextTimer s,
   mkState (conns s) (<[nextTimer s := mkTimer cb ms]> (timers s)) (S (nextTimer s))).

Definition clearInterval (t : nat) (s : State) : State :=
  mkState (conns s) (delete t (timers s)) (nextTimer s).

Definition event_line (name : string) : string := "event: " +:+ name +:+ LF.
Definition data_line (payload : JsonValue) : string :=
  "data: " +:+ JSON.stringify payload +:+ LF +:+ LF.

(** The handler of [app.get('/api/events', (req, res) => ...)] for the
    request [rq]. *)
Definition handler (rq : nat) (s : State) : State :=
  let res0 := mkResponse ∅ [] in
  let res1 := setHeader "Content-Type" "text/event-stream" res0 in
  let res2 := setHeader "Cache-Control" "no-cache" res1 in
  let res3 := setHeader "Connection" "keep-alive" res2 in
  let res4 := write (event_line "connected") res3 in
  let res5 :=
    write (data_line (JObject [("message", JString "Connected to event stream")])) res4 in
  let counter0 := 0 in
  let '(counterInterval0, s1) := setInterval (counterTick rq) 1000 s in
  let '(randomInterval0, s2) := setInterval (randomTick rq) 2000 s1 in
  mkState
    (<[rq := mkConnection res5 counter0 counterInterval0 randomInterval0 false]> (conns s2))
    (timers s2) (nextTimer s2).

(** The body of the counter interval: [counter++], then two writes. *)
Definition counterCallback (k : Connection) : Connection :=
  let counter1 := JsNumber.incr (counter k) in
  let res1 := write (event_line "counter") (res k) in
  let res2 := write (data_line (JObject [("count", JInteger counter1)])) res1 in
  mkConnection res2 counter1 (counterInterval k) (randomInterval k) (closed k).

(** [Math.floor(Math.random() * 100)], for the value [rnd] that
    [Math.random()] returns in this call. *)
Definition sample (rnd : spec_float) : JsonValue :=
  match JsNumber.floor (JsNumber.mul rnd (JsNumber.of_Z 100)) with
  | Some n => JInteger n
  | None => JNull
  end.

(** The body of the random interval. *)
Definition randomCallback (rnd : spec_float) (k : Connection) : Connection :=
  let random := sample rnd in
  let res1 := write (event_line "random") (res k) in
  let res2 := write (data_line (JObject [("number", random)])) res1 in
  mkConnection res2 (counter k) (counterInterval k) (randomInterval k) (closed k).

(** The listener of [req.on('close', ...)]. *)
Definition closeListener (k : Connection) (s : State) : State :=
  let s1 := clearInterval (counterInterval k) s in
  let s2 := clearInterval (randomInterval k) s1 in
  s2.

(** What the event loop may run next. A timer callback comes with the
    value a call of [Math.random()] returns in it; the counter callback
    makes no such call and ignores the value. *)
Inductive LoopEvent :=
  | Request (rq : nat)
  | Timeout (t : nat) (rnd : spec_float)
  | Close (rq : nat).

Definition update (rq : nat) (k : Connection) (s : State) : State :=
  mkState (<[rq := k]> (conns s)) (timers s) (nextTimer s).

(** One turn of the loop; [None] when the event cannot happen in [s]:
    a request that already exists, a timer that is not active, a random
    callback with a value [Math.random()] cannot return, a request that
    has already closed. *)
Definition step (s : State) (ev : LoopEvent) : option State :=
  match ev with
  | Request rq =>
      match conns s !! rq with
      | None => Some (handler rq s)
      | Some _ => None
      end
  | Timeout t rnd =>
      match timers s !! t with
      | None => None
      | Some tm =>
          match callback tm with
          | counterTick rq =>
              k ← conns s !! rq; Some (update rq (counterCallback k) s)
          | randomTick rq =>
              if JsNumber.is_random rnd then
                k ← conns s !! rq; Some (update rq (randomCallback rnd k) s)
              else None
          end
      end
  | Close rq =>
      k ← conns s !! rq;
      if closed k then None
      else
        let k' := mkConnection (res k) (counter k) (counterInterval k)
                               (randomInterval k) true in
        Some (closeListener k (update rq k' s))
  end.

Fixpoint run (s : State) (evs : list LoopEvent) : option State :=
  match evs with
  | [] => Some s
  | ev :: evs' => s' ← step s ev; run s' evs'
  end.

(** *** What one request sees *)

(** The events of the loop from the point of view of one request. *)
Inductive ConnEvent :=
  | cOpen
  | cCounter
  | cRandom (rnd : spec_float)
  | cClose.

(** The request an event of the loop belongs to in state [s]: a timer
    belongs to the request whose closure it runs. *)
Definition label (s : State) (ev : LoopEvent) : option (nat * ConnEvent) :=
  match ev with
  | Request rq => Some (rq, cOpen)
  | Timeout t rnd =>
      tm ← timers s !! t;
      Some (match callback tm with
            | counterTick rq => (rq, cCounter)
            | randomTick rq => (rq, cRandom rnd)
            end)
  | Close rq => Some (rq, cClose)
  end.

(** The events of request [rq] along a run from [s], in order. *)
Fixpoint history (rq : nat) (s : State) (evs : list LoopEvent) : list ConnEvent :=
  match evs with
  | [] => []
  | ev :: evs' =>
      match step s ev with
      | Some s' =>
          match label s ev with
          | Some (rq', e) =>
              if decide (rq' = rq) then e :: history rq s' evs' else history rq s' evs'
          | None => history rq s' evs'
          end
      | None => []
      end
  end.

(** The named events of the stream. *)
Inductive Sse :=
  | connected
  | counterEv (count : Z)
  | randomEv (number : JsonValue).

Definition name (e : Sse) : string :=
  match e with
  | connected => "connected"
  | counterEv _ => "counter"
  | randomEv _ => "random"
  end.

Definition payload (e : Sse) : JsonValue :=
  match e with
  | connected => JObject [("message", JString "Connected to event stream")]
  | counterEv n => JObject [("count", JInteger n)]
  | randomEv v => JObject [("number", v)]
  end.

(** The two chunks written for one event. *)
Definition frame (e : Sse) : list string := [event_line (name e); data_line (payload e)].

(** What the timers of a request write along its events, with [n] the
    value of [counter] before the first of them. *)
Fixpoint emitted (n : Z) (h : list ConnEvent) : list Sse :=
  match h with
  | [] => []
  | cCounter :: h' => counterEv (JsNumber.incr n) :: emitted (JsNumber.incr n) h'
  | cRandom rnd :: h' => randomEv (sample rnd) :: emitted n h'
  | _ :: h' => emitted n h'
  end.

Fixpoint counter_after (n : Z) (h : list ConnEvent) : Z :=
  match h with
  | [] => n
  | cCounter :: h' => counter_after (JsNumber.incr n) h'
  | _ :: h' => counter_after n h'
  end.

(** Reading a body back: chunks go in pairs, an event line and its data
    line; [payloads nm] keeps the data lines of the events named [nm]. *)
Fixpoint frames (chunks : list string) : list (string * string) :=
  match chunks with
  | e :: d :: rest => (e, d) :: frames rest
  | _ => []
  end.

Definition payloads (nm : string) (chunks : list string) : list string :=
  map snd (filter (fun f => fst f = event_line nm) (frames chunks)).

(** Every active timer runs the closure of a live request that holds its
    handle. *)
Definition timers_owned (s : State) : Prop :=
  forall t tm, timers s !! t = Some tm ->
    match callback tm with
    | counterTick rq => exists k, conns s !! rq = Some k /\ counterInterval k = t
    | randomTick rq => exists k, conns s !! rq = Some k /\ randomInterval k = t
    end.

(** No active timer runs a closure of request [rq]. *)
Definition no_timer_of (rq : nat) (s : State) : Prop :=
  forall t tm, timers s !! t = Some tm ->
    callback tm <> counterTick rq /\ callback tm <> randomTick rq.

(** The counts and the numbers carried by a sequence of events. *)
Definition counts (evs : list Sse) : list Z :=
  omap (fun e => match e with counterEv n => Some n | _ => None end) evs.

Definition numbers (evs : list Sse) : list JsonValue :=
  omap (fun e => match e with randomEv v => Some v | _ => None end) evs.

(** How often the counter callback of a request has run. *)
Fixpoint counter_ticks (h : list ConnEvent) : nat :=
  match h with
  | [] => 0%nat
  | cCounter :: h' => S (counter_ticks h')
  | _ :: h' => counter_ticks h'
  end.

(** The values [Math.random()] returned to the callbacks of a request. *)
Definition draws (h : list ConnEvent) : list spec_float :=
  omap (fun e => match e with cRandom rnd => Some rnd | _ => None end) h.

(** The closure variables right after the handler has run in [s]. *)
Definition handler_connection (s : State) : Connection :=
  mkConnection
    (mkResponse
       (<["Connection" := "keep-alive"]>
          (<["Cache-Control" := "no-cache"]>
             (<["Content-Type" := "text/event-stream"]> ∅)))
       (frame connected))
    0 (nextTimer s) (S (nextTimer s)) false.

(** Two values [Math.random()] can return: [1/2], and the largest Number
    below 1, [1 - 2^-53]. *)
Definition one_half : spec_float := S754_finite false 4503599627370496 (-53).
Definition below_one : spec_float := S754_finite false 9007199254740991 (-53).

(** A short run used in examples: two requests; the first gets two
    counter ticks and a random tick and then closes, the second gets
    one counter tick before and one after that. *)
Definition demo : list LoopEvent :=
  [Request 0; Timeout 0 one_half; Timeout 1 below_one; Request 1;
   Timeout 0 one_half; Timeout 2 one_half; Close 0; Timeout 3 one_half]%nat.

(** A run in which the counter timer of a single request fires [n]
    times. *)
Definition ticking (n : nat) : list LoopEvent :=
  Request 0 :: repeat (Timeout 0 (S754_zero false)) n.

(** A request that has not closed has both its timers active, under the
    handles it holds, and every handle held was issued earlier. *)
Definition timers_live (s : State) : Prop :=
  forall rq k, conns s !! rq = Some k ->
    (counterInterval k < nextTimer s)%nat /\ (randomInterval k < nextTimer s)%nat /\
    (closed k = false ->
       timers s !! counterInterval k = Some (mkTimer (counterTick rq) 1000) /\
       timers s !! randomInterval k = Some (mkTimer (randomTick rq) 2000)).

(** The part of [demo] before the first request closes. *)
Definition demo_open : list LoopEvent :=
  [Request 0; Timeout 0 one_half; Timeout 1 below_one; Request 1;
   Timeout 0 one_half; Timeout 2 one_half]%nat.

(** Another run in which request 0 sees the same events as in [demo],
    with no other request around. *)
Definition demo_alone : list LoopEvent :=
  [Request 0; Timeout 0 one_half; Timeout 1 below_one; Timeout 0 one_half; Close 0]%nat.

End Server.

(** ** The page, [ServerSentEventsDemo] *)

(** A JavaScript value as [JSON.parse] builds it (plus [undefined], the
    result of reading a property that is absent). An object keeps its
    members in the order of the text; when a key is repeated the last
    member is the property. *)
Inductive JsValue :=
  | vUndefined
  | vNull
  | vBool (b : bool)
  | vNumber (x : spec_float)
  | vString (s : string)
  | vArray (items : list JsValue)
  | vObject (members : list (string * JsValue)).

Module Client.

Inductive Exn :=
  | SyntaxError
  | TypeError.

(** The state hooks of the component. [counter] and [randomNumber] are
    declared [number], but at run time they hold whatever value the
    setter was given. *)
Record View := mkView {
  connectionStatus : string;
  counter : JsValue;
  randomNumber : JsValue;
  error : option string
}.

(** What a callback of the page can do to the world around it. *)
Inductive Effect :=
  | setError (v : option string)
  | setConnectionStatus (v : string)
  | setCounter (v : JsValue)
  | setRandomNumber (v : JsValue)
  | console_log (v : JsValue)
  | console_error (msg : string)
  | eventSource_close.

(** A callback: the effects it performs, in order, and how it ends. *)
Definition Run (A : Type) : Type := list Effect * (Exn + A).

Definition ret {A} (a : A) : Run A := ([], inr a).
Definition throw {A} (x : Exn) : Run A := ([], inl x).
Definition perform (e : Effect) : Run unit := ([e], inr tt).
Definition bind {A B} (m : Run A) (f : A -> Run B) : Run B :=
  match m with
  | (es, inl x) => (es, inl x)
  | (es, inr a) => let '(es', r) := f a in (es ++ es', r)
  end.

Notation "'let*' x := m 'in' k" := (bind m (fun x => k))
  (at level 10, x name, m at level 100, k at level 200).
Notation "m >> k" := (bind m (fun _ => k))
  (at level 100, k at level 200, right associativity).

Definition effects {A} (m : Run A) : list Effect := fst m.
Definition throws {A} (m : Run A) : option Exn :=
  match snd m with inl x => Some x | inr _ => None end.

(** [v.key] for the three keys the page reads, [count], [number] and
    [message]: none of them is defined on a built-in prototype, so the
    result is the own property of an object and [undefined] for every
    other value, except that reading from [null] or [undefined]
    throws. *)
Fixpoint own (members : list (string * JsValue)) (key : string) : option JsValue :=
  match members with
  | [] => None
  | (k, v) :: rest =>
      match own rest key with
      | Some v' => Some v'
      | None => if String.eqb k key then Some v else None
      end
  end.

Definition get (v : JsValue) (key : string) : Run JsValue :=
  match v with
  | vUndefined | vNull => throw TypeError
  | vObject members =>
      match own members key with
      | Some x => ret x
      | None => ret vUndefined
      end
  | _ => ret vUndefined
  end.

Definition is_undefined (v : JsValue) : bool :=
  match v with vUndefined => true | _ => false end.

Section Page.

(** [JSON.parse], [None] when it throws a [SyntaxError]. *)
Variable JSON_parse : string -> option JsValue.

Definition parse (text : string) : Run JsValue :=
  match JSON_parse text with
  | Some v => ret v
  | None => throw SyntaxError
  end.

(** [eventSource.onopen] *)
Definition onopen : Run unit :=
  perform (setError None) >>
  perform (setConnectionStatus "Connected").

(** [eventSource.onerror] *)
Definition onerror : Run unit :=
  perform (setError (Some "Connection error. Retrying...")) >>
  perform (setConnectionStatus "Error - Retrying") >>
  perform (console_error "EventSource error:").

(** The listener of [connected]. *)
Definition on_connected (event_data : string) : Run unit :=
  let* data := parse event_data in
  let* message := get data "message" in
  perform (console_log message).

(** The listener of [counter]. *)
Definition on_counter (event_data : string) : Run unit :=
  let* data := parse event_data in
  let* count := get data "count" in
  if negb (is_undefined count) then perform (setCounter count) else ret tt.

(** The listener of [random]. *)
Definition on_random (event_data : string) : Run unit :=
  let* data := parse event_data in
  let* number := get data "number" in
  if negb (is_undefined number) then perform (setRandomNumber number) else ret tt.

(** The function the effect hook returns, run on unmount. *)
Definition cleanup : Run unit := perform eventSource_close.

(** The [EventSource] object, the console, and the exceptions that
    left a listener and were reported by the browser. *)
Record World := mkWorld {
  view : View;
  url : string;
  source_closed : bool;
  console : list Effect;
  uncaught : list Exn
}.

(** The component after its first render and its effect hook. *)
Definition mounted : World :=
  mkWorld (mkView "Disconnected" (vNumber (S754_zero false))
             (vNumber (S754_zero false)) None)
          "/api/events" false [] [].

Definition apply (e : Effect) (w : World) : World :=
  let v := view w in
  match e with
  | setError x =>
      mkWorld (mkView (connectionStatus v) (counter v) (randomNumber v) x)
              (url w) (source_closed w) (console w) (uncaught w)
  | setConnectionStatus x =>
      mkWorld (mkView x (counter v) (randomNumber v) (error v))
              (url w) (source_closed w) (console w) (uncaught w)
  | setCounter x =>
      mkWorld (mkView (connectionStatus v) x (randomNumber v) (error v))
              (url w) (source_closed w) (console w) (uncaught w)
  | setRandomNumber x =>
      mkWorld (mkView (connectionStatus v) (counter v) x (error v))
              (url w) (source_closed w) (console w) (uncaught w)
  | console_log _ | console_error _ =>
      mkWorld v (url w) (source_closed w) (console w ++ [e]) (uncaught w)
  | eventSource_close =>
      mkWorld v (url w) true (console w) (uncaught w)
  end.

(** Running a callback: its effects happen in order; an exception
    that leaves it is reported and the page goes on. *)
Definition exec (m : Run unit) (w : World) : World :=
  let w' := fold_left (fun w e => apply e w) (effects m) w in
  match throws m with
  | Some x => mkWorld (view w') (url w') (source_closed w') (console w')
                      (uncaught w' ++ [x])
  | None => w'
  end.

(** What the [EventSource] can deliver, and the unmount of the page. *)
Inductive Incoming :=
  | Open
  | Error
  | Message (type data : string)
  | Unmount.

(** The listeners registered in the effect hook, by event. [onopen]
    and [onerror] are the handlers of every event of type [open] and
    [error] dispatched at the source, so they also run for a block of
    the stream that names its event [open] or [error]. *)
Definition listener (i : Incoming) : Run unit :=
  match i with
  | Open => onopen
  | Error => onerror
  | Message type data =>
      if String.eqb type "connected" then on_connected data
      else if String.eqb type "counter" then on_counter data
      else if String.eqb type "random" then on_random data
      else if String.eqb type "error" then onerror
      else if String.eqb type "open" then onopen
      else ret tt
  | Unmount => cleanup
  end.

(** A closed [EventSource] dispatches nothing. [deliver] runs the
    listeners alone; the render that follows a change of state is
    [PageView.page_step]. *)
Definition deliver (w : World) (i : Incoming) : World :=
  match i with
  | Unmount => exec cleanup w
  | _ => if source_closed w then w else exec (listener i) w
  end.

Definition deliver_all (w : World) (l : list Incoming) : World :=
  fold_left deliver l w.

End Page.

(** Two worlds that differ at most in the exceptions reported so far. *)
Definition same_page (w1 w2 : World) : Prop :=
  view w1 = view w2 /\ url w1 = url w2 /\
  source_closed w1 = source_closed w2 /\ console w1 = console w2.

End Client.

(** ** The JSON grammar *)

(** A reader for JSON texts (ECMA-404), used to instantiate [JSON.parse]:
    insignificant white space, the three literal names, numbers rounded
    to the nearest binary64, strings with their escapes, arrays and
    objects. Strings are kept as UTF-8, and a [\uXXXX] escape is encoded
    accordingly. *)
Module JsonText.

Definition code (c : ascii) : Z := Z.of_nat (nat_of_ascii c).
Definition char (n : Z) : ascii := ascii_of_nat (Z.to_nat n).

Definition is_ws (c : ascii) : bool :=
  (code c =? 32) || (code c =? 9) || (code c =? 10) || (code c =? 13).

Definition is_digit (c : ascii) : bool := (48 <=? code c) && (code c <=? 57).

Definition hex_value (c : ascii) : option Z :=
  let n := code c in
  if (48 <=? n) && (n <=? 57) then Some (n - 48)
  else if (97 <=? n) && (n <=? 102) then Some (n - 87)
  else if (65 <=? n) && (n <=? 70) then Some (n - 55)
  else None.

Fixpoint skip_ws (cs : list ascii) : list ascii :=
  match cs with
  | c :: cs' => if is_ws c then skip_ws cs' else cs
  | [] => []
  end.

Fixpoint strip (prefix cs : list ascii) : option (list ascii) :=
  match prefix, cs with
  | [], _ => Some cs
  | p :: prefix', c :: cs' => if Ascii.eqb p c then strip prefix' cs' else None
  | _ :: _, [] => None
  end.

Fixpoint digits (cs : list ascii) : list ascii * list ascii :=
  match cs with
  | c :: cs' =>
      if is_digit c then let '(ds, rest) := digits cs' in (c :: ds, rest)
      else ([], cs)
  | [] => ([], [])
  end.

(** The number a string of digits denotes. *)
Definition decimal (ds : list ascii) : Z :=
  match NilEmpty.uint_of_string (string_of_list_ascii ds) with
  | Some d => Z.of_uint d
  | None => 0
  end.

(** The Number nearest to [m * 10^e10], with the sign [neg]. *)
Definition to_number (neg : bool) (m e10 : Z) : spec_float :=
  match m with
  | Z.pos p =>
      if 0 <=? e10 then
        binary_normalize JsNumber.prec JsNumber.emax
          (if neg then - (m * 10 ^ e10) else m * 10 ^ e10) 0 false
      else
        SFdiv JsNumber.prec JsNumber.emax
          (S754_finite neg p 0) (S754_finite false (Z.to_pos (10 ^ (- e10))) 0)
  | _ => S754_zero neg
  end.

(** [-? int frac? exp?], where [int] has no superfluous leading zero. *)
Definition number (cs : list ascii) : option (spec_float * list ascii) :=
  let '(neg, cs1) :=
    match strip ["-"%char] cs with Some r => (true, r) | None => (false, cs) end in
  let '(int, cs2) := digits cs1 in
  let int_ok :=
    match int with
    | [] => false
    | [_] => true
    | d :: _ => negb (Ascii.eqb d "0")
    end in
  if negb int_ok then None else
  let frac :=
    match strip ["."%char] cs2 with
    | Some r => let '(f, r') := digits r in
                match f with [] => None | _ => Some (f, r') end
    | None => Some ([], cs2)
    end in
  match frac with
  | None => None
  | Some (f, cs3) =>
      let exp_of (r : list ascii) : option (Z * list ascii) :=
        let '(eneg, r1) :=
          match strip ["-"%char] r with
          | Some r' => (true, r')
          | None => match strip ["+"%char] r with
                    | Some r' => (false, r')
                    | None => (false, r)
                    end
          end in
        let '(ed, r2) := digits r1 in
        match ed with
        | [] => None
        | _ => Some (if eneg then - decimal ed else decimal ed, r2)
        end in
      let ex :=
        match cs3 with
        | c :: r => if Ascii.eqb c "e" || Ascii.eqb c "E" then exp_of r
                    else Some (0, cs3)
        | [] => Some (0, cs3)
        end in
      match ex with
      | None => None
      | Some (e, cs4) =>
          Some (to_number neg (decimal (int ++ f)) (e - Z.of_nat (length f)), cs4)
      end
  end.

(** UTF-8 for the code unit of a [\uXXXX] escape. *)
Definition utf8 (u : Z) : list ascii :=
  if u <? 128 then [char u]
  else if u <? 2048 then [char (192 + u / 64); char (128 + u mod 64)]
  else [char (224 + u / 4096); char (128 + (u / 64) mod 64); char (128 + u mod 64)].

Definition escape (c : ascii) : option ascii :=
  let n := code c in
  if (n =? 34) || (n =? 92) || (n =? 47) then Some c
  else if n =? 98 then Some (char 8)
  else if n =? 102 then Some (char 12)
  else if n =? 110 then Some (char 10)
  else if n =? 114 then Some (char 13)
  else if n =? 116 then Some (char 9)
  else None.

(** The characters of a string, after its opening quote, up to and
    including its closing quote. *)
Fixpoint chars (cs : list ascii) : option (list ascii * list ascii) :=
  match cs with
  | [] => None
  | c :: cs' =>
      if code c =? 34 then Some ([], cs')
      else if code c <? 32 then None
      else if code c =? 92 then
        match cs' with
        | e :: cs'' =>
            if code e =? 117 then
              match cs'' with
              | a :: b :: c' :: d :: rest =>
                  match hex_value a, hex_value b, hex_value c', hex_value d with
                  | Some x3, Some x2, Some x1, Some x0 =>
                      '(s, r) ← chars rest;
                      Some (utf8 (4096 * x3 + 256 * x2 + 16 * x1 + x0) ++ s, r)
                  | _, _, _, _ => None
                  end
              | _ => None
              end
            else
              x ← escape e; '(s, r) ← chars cs''; Some (x :: s, r)
        | [] => None
        end
      else '(s, r) ← chars cs'; Some (c :: s, r)
  end.

Fixpoint value (fuel : nat) (cs : list ascii) {struct fuel}
  : option (JsValue * list ascii) :=
  match fuel with
  | O => None
  | S fuel' =>
      match skip_ws cs with
      | [] => None
      | c :: rest =>
          if code c =? 34 then
            '(s, r) ← chars rest; Some (vString (string_of_list_ascii s), r)
          else if code c =? 91 then
            match skip_ws rest with
            | c' :: r' => if code c' =? 93 then Some (vArray [], r')
                          else '(l, r) ← elements fuel' rest; Some (vArray l, r)
            | [] => None
            end
          else if code c =? 123 then
            match skip_ws rest with
            | c' :: r' => if code c' =? 125 then Some (vObject [], r')
                          else '(l, r) ← members fuel' rest; Some (vObject l, r)
            | [] => None
            end
          else if is_digit c || (code c =? 45) then
            '(x, r) ← number (c :: rest); Some (vNumber x, r)
          else
            match strip (list_ascii_of_string "null") (c :: rest) with
            | Some r => Some (vNull, r)
            | None =>
            match strip (list_ascii_of_string "true") (c :: rest) with
            | Some r => Some (vBool true, r)
            | None =>
            match strip (list_ascii_of_string "false") (c :: rest) with
            | Some r => Some (vBool false, r)
            | None => None
            end end end
      end
  end
with elements (fuel : nat) (cs : list ascii) {struct fuel}
  : option (list JsValue * list ascii) :=
  match fuel with
  | O => None
  | S fuel' =>
      '(v, r) ← value fuel' cs;
      match skip_ws r with
      | c :: r' =>
          if code c =? 93 then Some ([v], r')
          else if code c =? 44 then '(l, r'') ← elements fuel' r'; Some (v :: l, r'')
          else None
      | [] => None
      end
  end
with members (fuel : nat) (cs : list ascii) {struct fuel}
  : option (list (string * JsValue) * list ascii) :=
  match fuel with
  | O => None
  | S fuel' =>
      match skip_ws cs with
      | q :: r0 =>
          if code q =? 34 then
            '(k, r1) ← chars r0;
            match skip_ws r1 with
            | colon :: r2 =>
                if code colon =? 58 then
                  '(v, r) ← value fuel' r2;
                  let kv := (string_of_list_ascii k, v) in
                  match skip_ws r with
                  | c :: r' =>
                      if code c =? 125 then Some ([kv], r')
                      else if code c =? 44 then
                        '(l, r'') ← members fuel' r'; Some (kv :: l, r'')
                      else None
                  | [] => None
                  end
                else None
            | [] => None
            end
          else None
      | [] => None
      end
  end.

(** [JSON.parse]: one value, white space around it, nothing else. *)
Definition parse (text : string) : option JsValue :=
  let cs := list_ascii_of_string text in
  '(v, r) ← value (2 * length cs + 2) cs;
  match skip_ws r with
  | [] => Some v
  | _ => None
  end.

End JsonText.

(** ** The stream as the client reads it *)

Module Wire.
Import Server.

(** The bytes of a body: its chunks, one after the other. *)
Definition wire (chunks : list string) : string := fold_right append EmptyString chunks.

(** The block of one event: its name on an [event:] line, its payload on
    a [data:] line, and an empty line. *)
Definition block (e : Sse) : string :=
  "event: " +:+ name e +:+ LF +:+ "data: " +:+ JSON.stringify (payload e) +:+ LF +:+ LF.

(** A text with no line terminator (LF or CR) in it. *)
Fixpoint one_line (s : string) : bool :=
  match s with
  | EmptyString => true
  | String c s' =>
      negb (Nat.eqb (nat_of_ascii c) 10) && negb (Nat.eqb (nat_of_ascii c) 13) && one_line s'
  end.

(** The JavaScript value a serialized value stands for. *)
Fixpoint js_of (v : JsonValue) : JsValue :=
  match v with
  | JString s => vString s
  | JInteger z => vNumber (JsNumber.of_Z z)
  | JNull => vNull
  | JObject fields => vObject (map (fun kv => (fst kv, js_of (snd kv))) fields)
  end.

(** The events the handler and the timers can write: any count from 0 up,
    and a number from 0 to 99. *)
Definition written (e : Sse) : Prop :=
  match e with
  | connected => True
  | counterEv n => 0 <= n
  | randomEv v => exists n, v = JInteger n /\ 0 <= n < 100
  end.

End Wire.

(** ** Timers as a resource *)

Module Resources.
Import Server.

(** The handle [t] is held by a request that has not closed. *)
Definition held (s : State) (t : nat) : Prop :=
  exists rq k, conns s !! rq = Some k /\ closed k = false /\
    (t = counterInterval k \/ t = randomInterval k).

(** The number of requests that have not closed. *)
Definition open_connections (s : State) : nat :=
  size (filter (fun kv => closed kv.2 = false) (conns s)).

(** Every active timer is one of the two of a request that has not
    closed, with the callback and the delay the handler gave it. *)
Definition timers_of_open (s : State) : Prop :=
  forall t tm, timers s !! t = Some tm ->
    exists rq k, conns s !! rq = Some k /\ closed k = false /\
      ((tm = mkTimer (counterTick rq) 1000 /\ counterInterval k = t) \/
       (tm = mkTimer (randomTick rq) 2000 /\ randomInterval k = t)).

End Resources.

(** ** What the page shows *)

Module PageView.
Import Client.

(** [s.includes(sub)] *)
Definition includes (s sub : string) : bool :=
  match index 0 sub s with
  | Some _ => true
  | None => false
  end.

(** The colour of the status dot, the last class of its [className]. *)
Definition indicator (connectionStatus : string) : string :=
  if String.eqb connectionStatus "Connected" then "bg-green-500"
  else if includes connectionStatus "Error" then "bg-red-500"
  else "bg-yellow-500".

Definition className (connectionStatus : string) : string :=
  "w-3 h-3 rounded-full " +:+ indicator connectionStatus.

(** [{error && <p>...{error}</p>}]: the paragraph is there when [error] is
    a string that is not empty, and holds that string. *)
Definition error_paragraph (error : option string) : option string :=
  match error with
  | Some msg => if String.eqb msg EmptyString then None else Some msg
  | None => None
  end.

(** The events an [EventSource] dispatches for the blocks of a stream:
    the type is the value of the [event:] line, the data the value of the
    [data:] line. *)
Definition dispatched (es : list Server.Sse) : list Incoming :=
  map (fun e => Message (Server.name e) (JSON.stringify (Server.payload e))) es.

(** Whether React can render a value as a child of an element, as in
    [{counter}]: text for a string or a Number, nothing for a boolean,
    [null] or [undefined], the items of an array one after the other;
    an object is not a valid child, and rendering it throws. *)
Fixpoint renderable (v : JsValue) : bool :=
  match v with
  | vObject _ => false
  | vArray items => forallb renderable items
  | _ => true
  end.

(** Whether the component renders with the state [v]: [connectionStatus]
    and [error] are strings the code itself has set; [counter] and
    [randomNumber] hold what the stream has sent. *)
Definition renders (v : View) : bool :=
  renderable (counter v) && renderable (randomNumber v).

Section Page.

Variable JSON_parse : string -> option JsValue.

(** One event at the page: the listeners run, then the component
    renders with the new state. There is no error boundary: when the
    render throws, React unmounts the tree, which runs the cleanup of
    the effect hook. *)
Definition page_step (w : World) (i : Incoming) : World :=
  let w' := deliver JSON_parse w i in
  if renders (view w') then w' else exec cleanup w'.

Definition page_run (w : World) (l : list Incoming) : World :=
  fold_left page_step l w.

End Page.

(** The events that reach [onopen] and [onerror]. *)
Inductive Transport :=
  | Opened
  | Failed.

Definition transport_of (i : Incoming) : option Transport :=
  match i with
  | Open => Some Opened
  | Error => Some Failed
  | Message type _ =>
      if String.eqb type "open" then Some Opened
      else if String.eqb type "error" then Some Failed
      else None
  | Unmount => None
  end.

(** The last of them in a sequence of events, if there is one. *)
Definition last_transport (l : list Incoming) : option Transport :=
  fold_left (fun t i => match transport_of i with Some t' => Some t' | None => t end)
            l None.

Definition is_counter_message (i : Incoming) : bool :=
  match i with
  | Message type _ => String.eqb type "counter"
  | _ => false
  end.

End PageView.

(** ** The polling page, [PollingDemo] *)

Module Polling.

Definition POLLING_INTERVAL : Z := 2000.

(** The state hooks: [data] is [null] until a response has been read. *)
Record View := mkView {
  data : JsValue;
  loading : bool;
  error : option string
}.

(** The variables of the effect hook, [isMounted] and whether [interval]
    is an active timer, and the number of calls of [fetchData] that are
    waiting at an [await]. *)
Record World := mkWorld {
  view : View;
  isMounted : bool;
  interval : bool;
  pending : nat
}.

(** How a call of [fetchData] leaves its [try] block: with the parsed
    body, with the [Error] thrown for a response that is not [ok], or
    with what [fetch] or [res.json()] rejected with. *)
Inductive Outcome :=
  | Parsed (json : JsValue)
  | NotOk
  | Rejected (message : string).

Inductive Event :=
  | Tick
  | Settle (o : Outcome)
  | Unmount.

(** [fetchData] up to its first [await]. *)
Definition fetchData_start (w : World) : World :=
  mkWorld (mkView (data (view w)) true None) (isMounted w) (interval w) (S (pending w)).

(** [fetchData] from the [await] that settles to its end: the rest of the
    [try] block or the [catch] block, then the [finally] block. *)
Definition fetchData_settle (o : Outcome) (w : World) : World :=
  let v := view w in
  let v1 :=
    match o with
    | Parsed json =>
        if isMounted w then mkView json (loading v) (error v) else v
    | NotOk =>
        if isMounted w then mkView (data v) (loading v) (Some "Network error"%string) else v
    | Rejected message =>
        if isMounted w then mkView (data v) (loading v) (Some message) else v
    end in
  let v2 := if isMounted w then mkView (data v1) false (error v1) else v1 in
  mkWorld v2 (isMounted w) (interval w) (Nat.pred (pending w)).

(** The component after its first render and its effect hook: the first
    call of [fetchData] is waiting and the interval is set. *)
Definition mounted : World :=
  fetchData_start (mkWorld (mkView vNull false None) true true 0).

(** The function the effect hook returns. *)
Definition cleanup (w : World) : World :=
  mkWorld (view w) false false (pending w).

(** One turn of the loop: the interval fires only while it is active, a
    call settles only if one is waiting. *)
Definition step (w : World) (ev : Event) : World :=
  match ev with
  | Tick => if interval w then fetchData_start w else w
  | Settle o => match pending w with O => w | S _ => fetchData_settle o w end
  | Unmount => cleanup w
  end.

Definition run (w : World) (evs : list Event) : World := fold_left step evs w.

Definition is_parsed (ev : Event) : bool :=
  match ev with Settle (Parsed _) => true | _ => false end.

End Polling.

(** ** Routes and navigation links *)

Module Routing.

Inductive Page :=
  | Home
  | ComponentsShowcase
  | CodeExample
  | PollingDemo
  | NotFound.

Record NavLink := mkNavLink {
  href : string;
  label : string;
  active : bool
}.

Section Location.

(** Whether the current location matches a route pattern, as [wouter]
    decides it. *)
Variable matches : string -> bool.

(** [Router]: the [Switch] renders its first [Route] that matches; the
    last one has no path and matches everything. *)
Definition Router : Page :=
  if matches "/" then Home
  else if matches "/components" then ComponentsShowcase
  else if matches "/code-example" then CodeExample
  else if matches "/polling-demo" then PollingDemo
  else NotFound.

(** [MainNav] of [main-nav.tsx]. *)
Definition MainNav : list NavLink :=
  let isHomeActive := matches "/" in
  let isComponentsActive := matches "/components" in
  let isDocsActive := matches "/code-example" in
  let isSettingsActive := matches "/settings" in
  [mkNavLink "/" "Home" isHomeActive;
   mkNavLink "/polling-demo" "Polling Demo" isComponentsActive;
   mkNavLink "/components" "Components" isDocsActive;
   mkNavLink "/code-example" "Code Examples" isSettingsActive].

(** The other [MainNav] of the sources. *)
Definition MainNav_dashboard : list NavLink :=
  let isHomeActive := matches "/" in
  let isComponentsActive := matches "/components" in
  let isDocsActive := matches "/code-example" in
  let isSettingsActive := matches "/settings" in
  [mkNavLink "/" "Dashboard" isHomeActive;
   mkNavLink "/components" "Components" isComponentsActive;
   mkNavLink "/code-example" "Documentation" isDocsActive;
   mkNavLink "/settings" "Settings" isSettingsActive].

(** The class of a link. *)
Definition link_className (l : NavLink) : string :=
  "text-sm font-medium transition-colors hover:text-primary " +:+
  (if active l then "text-primary" else EmptyString).

End Location.

(** A location that is exactly the path [p]: it matches the pattern [p]
    and no other pattern without parameters. *)
Definition at_path (p : string) : string -> bool := String.eqb p.

(** The page a link leads to. *)
Definition target (l : NavLink) : Page := Router (at_path (href l)).

End Routing.

(** * Properties of Number arithmetic *)

Module JsNumberFacts.
Import JsNumber.

Lemma iter_pos_nat {A} (f : A -> A) p : forall x,
  SpecFloat.iter_pos f p x = Nat.iter (Pos.to_nat p) f x.
Proof.
  induction p as [p IH|p IH|]; intros x; cbn [SpecFloat.iter_pos].
  - rewrite !IH, Pos2Nat.inj_xI, Nat.iter_succ_r.
    replace (2 * Pos.to_nat p)%nat with (Pos.to_nat p + Pos.to_nat p)%nat by lia.
    by rewrite Nat.iter_add.
  - rewrite !IH, Pos2Nat.inj_xO.
    replace (2 * Pos.to_nat p)%nat with (Pos.to_nat p + Pos.to_nat p)%nat by lia.
    by rewrite Nat.iter_add.
  - done.
Qed.

Lemma shr_1_spec m r s :
  0 <= m -> shr_1 (Build_shr_record m r s) = Build_shr_record (m / 2) (Z.odd m) (r || s).
Proof.
  intros Hm. destruct m as [|[p|p|]|p]; try lia; cbn [shr_1 Z.odd]; f_equal.
  - rewrite Pos2Z.inj_xI. apply (Z.div_unique _ _ _ 1); lia.
  - rewrite Pos2Z.inj_xO. apply (Z.div_unique _ _ _ 0); lia.
Qed.

(** [k] halvings keep the quotient by [2^k]; the round bit is the last
    bit shifted out. *)
Lemma shr_iter k : forall m r s,
  0 <= m ->
  let mrs := Nat.iter k shr_1 (Build_shr_record m r s) in
  shr_m mrs = m / 2 ^ Z.of_nat k /\
  ((0 < k)%nat -> shr_r mrs = true ->
     shr_m mrs * 2 ^ Z.of_nat k + 2 ^ (Z.of_nat k - 1) <= m).
Proof.
  induction k as [|k IH]; intros m r s Hm; cbn zeta.
  { cbn [Nat.iter shr_m]. rewrite Z.div_1_r. split; [done|lia]. }
  rewrite !Nat.iter_succ. pose proof (IH m r s Hm) as IHm. cbn zeta in IHm.
  destruct (Nat.iter k shr_1 _) as [q rk sk]. cbn [shr_m] in IHm.
  destruct IHm as [-> _].
  assert (Hpow : 0 < 2 ^ Z.of_nat k) by (apply Z.pow_pos_nonneg; lia).
  assert (Hq : 0 <= m / 2 ^ Z.of_nat k) by (apply Z.div_pos; lia).
  rewrite shr_1_spec by done. cbn [shr_m shr_r].
  rewrite Nat2Z.inj_succ, Z.pow_succ_r by lia.
  split.
  - rewrite Z.div_div by lia. f_equal. lia.
  - intros _ Hodd.
    replace (Z.succ (Z.of_nat k) - 1) with (Z.of_nat k) by lia.
    pose proof (Z.div_mod (m / 2 ^ Z.of_nat k) 2 ltac:(lia)) as Hd.
    rewrite Zmod_odd, Hodd in Hd.
    pose proof (Z.mul_div_le m (2 ^ Z.of_nat k) Hpow).
    nia.
Qed.

(** Shifting out [n] bits and rounding to nearest: the rounded mantissa,
    scaled back, exceeds the original by at most half a unit. *)
Lemma shr_round m e n :
  0 <= m ->
  exists m1 r s,
    shr (Build_shr_record m false false) e n = (Build_shr_record m1 r s, e + Z.max n 0) /\
    m1 = m / 2 ^ Z.max n 0 /\
    let m2 := round_nearest_even m1 (loc_of_shr_record (Build_shr_record m1 r s)) in
    m1 <= m2 <= m1 + 1 /\
    2 * m2 * 2 ^ Z.max n 0 <= 2 * m + 2 ^ Z.max n 0.
Proof.
  intros Hm.
  destruct (Z.le_gt_cases n 0) as [Hn|Hn].
  { rewrite Z.max_r by done. exists m, false, false.
    rewrite Z.pow_0_r, Z.div_1_r, Z.add_0_r.
    split; [by destruct n; try lia|]. split; [done|].
    cbn [loc_of_shr_record round_nearest_even]. lia. }
  destruct n as [|p|p]; try lia.
  rewrite (Z.max_l (Z.pos p) 0) by lia.
  cbn [shr]. rewrite iter_pos_nat.
  pose proof (shr_iter (Pos.to_nat p) m false false Hm) as Hit. cbn zeta in Hit.
  rewrite positive_nat_Z in Hit.
  destruct (Nat.iter _ shr_1 _) as [m1 r s]. cbn [shr_m shr_r] in Hit.
  destruct Hit as [Hm1 Hr]. exists m1, r, s. split; [done|]. split; [done|].
  assert (Hpow : 0 < 2 ^ Z.pos p) by (apply Z.pow_pos_nonneg; lia).
  pose proof (Z.mul_div_le m (2 ^ Z.pos p) Hpow) as Hle.
  assert (Hhalf : 2 ^ Z.pos p = 2 * 2 ^ (Z.pos p - 1)).
  { rewrite <- Z.pow_succ_r by lia. f_equal. lia. }
  assert (Hr' : r = true -> m1 * 2 ^ Z.pos p + 2 ^ (Z.pos p - 1) <= m) by (intros; apply Hr; [apply Pos2Nat.is_pos|done]).
  clear Hr. rewrite <- Hm1 in Hle.
  destruct r, s; cbn [loc_of_shr_record round_nearest_even];
    try destruct (Z.even m1); split; try lia; try specialize (Hr' eq_refl); nia.
Qed.

Lemma digits2_pos_bounds p :
  2 ^ (Z.pos (digits2_pos p) - 1) <= Z.pos p < 2 ^ Z.pos (digits2_pos p).
Proof.
  induction p as [p IH|p IH|]; cbn [digits2_pos]; [| |cbn; lia].
  - rewrite Pos2Z.inj_succ, Pos2Z.inj_xI.
    replace (Z.succ (Z.pos (digits2_pos p)) - 1) with (Z.succ (Z.pos (digits2_pos p) - 1)) by lia.
    rewrite !Z.pow_succ_r by lia. lia.
  - rewrite Pos2Z.inj_succ. change (Z.pos p~0) with (2 * Z.pos p).
    replace (Z.succ (Z.pos (digits2_pos p)) - 1) with (Z.succ (Z.pos (digits2_pos p) - 1)) by lia.
    rewrite !Z.pow_succ_r by lia. lia.
Qed.

Lemma Zdigits2_nonneg m : 0 <= Zdigits2 m.
Proof. destruct m; cbn; lia. Qed.

Lemma Zdigits2_le m k : 0 <= m < 2 ^ k -> 0 <= k -> Zdigits2 m <= k.
Proof.
  intros [Hm Hlt] Hk. destruct m as [|p|p]; cbn [Zdigits2]; [done| |lia].
  pose proof (digits2_pos_bounds p) as [Hlo _].
  apply Z.lt_pred_le, (Z.pow_lt_mono_r_iff 2); [lia..|].
  rewrite <- Z.sub_1_r. lia.
Qed.

(** Rounding a positive exact product [M * 2^E] to binary64: the result
    is zero or a positive Number that exceeds [M * 2^E] by at most half a
    unit of the first shift, and it overflows only if the exponent bound
    is exceeded. *)
Lemma binary_round_aux_bound sx M E :
  0 < M ->
  let p := Z.max (fexp prec emax (Zdigits2 M + E) - E) 0 in
  match binary_round_aux prec emax sx M E loc_Exact with
  | S754_zero s => s = sx
  | S754_finite s m3 e3 =>
      s = sx /\ E + p <= e3 /\ 2 * (Z.pos m3 * 2 ^ (e3 - E)) <= 2 * M + 2 ^ p
  | S754_infinity _ =>
      emax - prec < Z.max (E + p) (Z.max (Zdigits2 M + 1 + E + p - prec) (emin prec emax))
  | S754_nan => False
  end.
Proof.
  intros HM p. unfold binary_round_aux, shr_fexp.
  cbn [shr_record_of_loc].
  destruct (shr_round M E (fexp prec emax (Zdigits2 M + E) - E) ltac:(lia))
    as (m1 & r & s & -> & Hm1 & Hm2).
  fold p in Hm1, Hm2 |- *. cbn zeta in Hm2. cbn [shr_m].
  set (m2 := round_nearest_even m1 _) in *.
  assert (Hp : 0 <= p) by (unfold p; lia).
  assert (Hpow : 0 < 2 ^ p) by (apply Z.pow_pos_nonneg; lia).
  assert (Hm1' : 0 <= m1 <= M).
  { subst m1. split; [apply Z.div_pos; lia|].
    apply Z.div_le_upper_bound; [lia|]. nia. }
  set (n2 := fexp prec emax (Zdigits2 m2 + (E + p)) - (E + p)).
  destruct (shr_round m2 (E + p) n2 ltac:(lia)) as (m3 & r3 & s3 & -> & Hm3 & _).
  cbn [shr_m].
  set (k := Z.max n2 0) in *.
  assert (Hk : 0 <= k) by (unfold k; lia).
  assert (Hpowk : 0 < 2 ^ k) by (apply Z.pow_pos_nonneg; lia).
  assert (Hm3' : 0 <= m3 /\ m3 * 2 ^ k <= m2).
  { subst m3. split; [apply Z.div_pos; lia|].
    rewrite Z.mul_comm. apply Z.mul_div_le. lia. }
  assert (Hd2 : Zdigits2 m2 <= Zdigits2 M + 1).
  { apply Zdigits2_le; [|pose proof (Zdigits2_nonneg M); lia].
    split; [lia|]. destruct M as [|q|q]; try lia. cbn [Zdigits2].
    pose proof (digits2_pos_bounds q) as [_ Hq].
    rewrite Z.pow_add_r by lia. lia. }
  destruct m3 as [|q3|q3]; [done| |lia].
  destruct (Z.leb_spec (E + p + k) (emax - prec)) as [Hle|Hgt].
  - split; [done|]. split; [lia|].
    replace (E + p + k - E) with (k + p) by lia.
    rewrite Z.pow_add_r by lia. nia.
  - unfold k, n2, fexp in *. lia.
Qed.

Lemma of_Z_100 : of_Z 100 = S754_finite false 7036874417766400 (-46).
Proof. reflexivity. Qed.

(** [Math.floor(x * 100)] for a Number [0 <= x < 1] is one of the
    integers 0 .. 99: the product is rounded to nearest, and even for the
    largest [x] below 1 it stays below 100. *)
Lemma floor_random_100 x :
  is_random x = true ->
  exists n, floor (mul x (of_Z 100)) = Some n /\ 0 <= n < 100.
Proof.
  rewrite of_Z_100. unfold mul.
  destruct x as [[|]| | |[|] m e]; cbn [is_random negb andb]; try done.
  { intros _. exists 0. cbn. split; [done|lia]. }
  intros Hx. apply andb_prop in Hx as [Hb Hlt1].
  apply Z.leb_le in Hlt1.
  unfold bounded, canonical_mantissa in Hb.
  apply andb_prop in Hb as [Hcanon _]. apply Z.eqb_eq in Hcanon.
  unfold fexp, emin, prec, emax in Hcanon.
  set (d := Z.pos (digits2_pos m)) in *.
  assert (Hd : 1 <= d <= 53) by (unfold d; lia).
  assert (He : -1074 <= e <= - d) by lia.
  pose proof (digits2_pos_bounds m) as [_ Hm]. fold d in Hm.
  cbn [SFmul xorb].
  set (C := 7036874417766400).
  set (M := Z.pos (m * 7036874417766400)).
  assert (HM : M = Z.pos m * C) by (unfold M; lia).
  assert (HdM : Zdigits2 M <= d + 53).
  { apply Zdigits2_le; [|lia]. rewrite Z.pow_add_r by lia.
    change (2 ^ 53) with 9007199254740992. unfold C in HM. nia. }
  pose proof (Zdigits2_nonneg M) as HdM0.
  pose proof (binary_round_aux_bound false M (e + -46) ltac:(lia)) as Hround.
  cbn zeta in Hround.
  set (p := Z.max (fexp prec emax (Zdigits2 M + (e + -46)) - (e + -46)) 0) in *.
  assert (Hp : 0 <= p <= 53) by (unfold p, fexp, emin, prec, emax; lia).
  assert (H2e : Z.pos m + 1 <= 2 ^ (- e)).
  { assert (2 ^ d <= 2 ^ (- e)) by (apply Z.pow_le_mono_r; lia). lia. }
  assert (H2p : 2 ^ p <= 2 ^ 53) by (apply Z.pow_le_mono_r; lia).
  change (2 ^ 53) with 9007199254740992 in H2p.
  assert (HK : 2 ^ (46 - e) = 70368744177664 * 2 ^ (- e)).
  { replace (46 - e) with (46 + - e) by lia. by rewrite Z.pow_add_r by lia. }
  assert (Hsmall : 2 * M + 2 ^ p < 200 * 2 ^ (46 - e)).
  { rewrite HK, HM. unfold C. nia. }
  destruct (binary_round_aux prec emax false M (e + -46) loc_Exact) as [s|s| |s m3 e3].
  - exists 0. cbn. split; [done|lia].
  - exfalso. unfold emin, prec, emax in Hround. lia.
  - done.
  - destruct Hround as (-> & He3 & Hval).
    replace (e3 - (e + -46)) with (e3 + (46 - e)) in Hval by lia.
    cbn [floor].
    assert (H2K : 0 < 2 ^ (46 - e)) by (apply Z.pow_pos_nonneg; lia).
    eexists; split; [reflexivity|].
    destruct (Z.leb_spec 0 e3) as [Hpos|Hneg].
    + assert (0 < 2 ^ e3) by (apply Z.pow_pos_nonneg; lia).
      rewrite Z.pow_add_r in Hval by lia. split; [lia|]. nia.
    + assert (H2n : 0 < 2 ^ (- e3)) by (apply Z.pow_pos_nonneg; lia).
      split; [apply Z.div_pos; lia|].
      apply Z.div_lt_upper_bound; [lia|].
      assert (Hsplit : 2 ^ (46 - e) = 2 ^ (- e3) * 2 ^ (e3 + (46 - e))).
      { rewrite <- Z.pow_add_r by lia. f_equal. lia. }
      assert (0 < 2 ^ (e3 + (46 - e))) by (apply Z.pow_pos_nonneg; lia).
      nia.
Qed.
(** *** Incrementing an integer *)

Lemma pos_iter_xO m n : Z.pos (Pos.iter xO m n) = Z.pos m * 2 ^ Z.pos n.
Proof.
  induction n as [|n IH] using Pos.peano_ind.
  - cbn [Pos.iter]. lia.
  - rewrite Pos.iter_succ, Pos2Z.inj_succ, Z.pow_succ_r by lia.
    change (Z.pos (Pos.iter xO m n)~0) with (2 * Z.pos (Pos.iter xO m n)). lia.
Qed.

Lemma Zdigits2_unique m d : 0 < m -> 2 ^ (d - 1) <= m < 2 ^ d -> Zdigits2 m = d.
Proof.
  intros Hm [Hlo Hhi]. destruct m as [|p|p]; try lia. cbn [Zdigits2].
  pose proof (digits2_pos_bounds p) as [Hlo' Hhi'].
  assert (0 < d).
  { destruct (Z.lt_trichotomy d 0) as [Hneg|[->|Hpos]]; [|cbn in Hhi; lia|done].
    rewrite (Z.pow_neg_r 2 d) in Hhi by done. lia. }
  assert (Z.pos (digits2_pos p) - 1 < d) by (apply (Z.pow_lt_mono_r_iff 2); lia).
  assert (d - 1 < Z.pos (digits2_pos p)) by (apply (Z.pow_lt_mono_r_iff 2); lia).
  lia.
Qed.

Lemma Zdigits2_bounds m : 0 < m -> 2 ^ (Zdigits2 m - 1) <= m < 2 ^ Zdigits2 m.
Proof. destruct m; try lia. intros _. apply digits2_pos_bounds. Qed.

Lemma Zdigits2_shift m k : 0 < m -> 0 <= k -> Zdigits2 (m * 2 ^ k) = Zdigits2 m + k.
Proof.
  intros Hm Hk. pose proof (Zdigits2_bounds m Hm) as [Hlo Hhi].
  assert (0 < 2 ^ k) by (apply Z.pow_pos_nonneg; lia).
  assert (1 <= Zdigits2 m) by (destruct m; cbn; lia).
  apply Zdigits2_unique; [nia|].
  replace (Zdigits2 m + k - 1) with (Zdigits2 m - 1 + k) by lia.
  rewrite !Z.pow_add_r by lia. nia.
Qed.

(** Rounding changes nothing when the bits shifted out are all zero. *)
Lemma binary_round_aux_exact sx M E :
  0 < M ->
  let p := Z.max (fexp prec emax (Zdigits2 M + E) - E) 0 in
  M mod 2 ^ p = 0 -> E + p <= emax - prec ->
  binary_round_aux prec emax sx M E loc_Exact =
    S754_finite sx (Z.to_pos (M / 2 ^ p)) (E + p).
Proof.
  intros HM p Hmod Hmax. unfold binary_round_aux, shr_fexp.
  cbn [shr_record_of_loc].
  destruct (shr_round M E (fexp prec emax (Zdigits2 M + E) - E) ltac:(lia))
    as (m1 & r & s & -> & Hm1 & Hm2).
  fold p in Hm1, Hm2 |- *. cbn zeta in Hm2. cbn [shr_m].
  set (m2 := round_nearest_even m1 _) in *.
  assert (Hp : 0 <= p) by (unfold p; lia).
  assert (Hpow : 0 < 2 ^ p) by (apply Z.pow_pos_nonneg; lia).
  assert (HMeq : M = m1 * 2 ^ p).
  { subst m1. pose proof (Z.div_mod M (2 ^ p) ltac:(lia)). lia. }
  assert (Hm1pos : 0 < m1) by nia.
  assert (m2 = m1) as -> by nia.
  assert (Hd1 : Zdigits2 M = Zdigits2 m1 + p) by (rewrite HMeq; by apply Zdigits2_shift).
  set (n2 := fexp prec emax (Zdigits2 m1 + (E + p)) - (E + p)).
  assert (Hn2 : n2 <= 0).
  { unfold n2, p, fexp in *. lia. }
  destruct (shr_round m1 (E + p) n2 ltac:(lia)) as (m3 & r3 & s3 & -> & Hm3 & _).
  cbn [shr_m]. rewrite (Z.max_r n2 0) in Hm3 |- * by exact Hn2.
  rewrite Z.pow_0_r, Z.div_1_r in Hm3. subst m3. rewrite Z.add_0_r.
  destruct m1 as [|q|q]; try lia.
  destruct (Z.leb_spec (E + p) (emax - prec)); [by rewrite <- Hm1|lia].
Qed.


(** The Number of a positive integer of at most 53 bits: the integer,
    shifted to a 53-bit mantissa. *)
Lemma of_Z_small x :
  0 < x -> Zdigits2 x <= 53 ->
  of_Z x = S754_finite false (Z.to_pos (x * 2 ^ (53 - Zdigits2 x))) (Zdigits2 x - 53).
Proof.
  intros Hx Hd. destruct x as [|q|q]; try lia.
  unfold of_Z, binary_normalize, binary_round.
  set (d := Zdigits2 (Z.pos q)) in *.
  assert (Hd1 : 1 <= d) by (unfold d; cbn; lia).
  change (Z.pos (digits2_pos q)) with d.
  assert (Hf : fexp prec emax (d + 0) = d - 53) by (unfold fexp, emin, prec, emax; lia).
  rewrite Hf. unfold shl_align.
  assert (Hround : forall mz ez,
            Z.pos mz = Z.pos q * 2 ^ (53 - d) -> ez = d - 53 ->
            binary_round_aux prec emax false (Z.pos mz) ez loc_Exact =
              S754_finite false (Z.to_pos (Z.pos q * 2 ^ (53 - d))) (d - 53)).
  { intros mz ez Hmz ->.
    assert (Hdm : Zdigits2 (Z.pos mz) = 53).
    { rewrite Hmz, Zdigits2_shift by lia. fold d. lia. }
    pose proof (binary_round_aux_exact false (Z.pos mz) (d - 53) ltac:(lia)) as Hex.
    cbn zeta in Hex. rewrite Hdm in Hex.
    replace (Z.max (fexp prec emax (53 + (d - 53)) - (d - 53)) 0) with 0 in Hex
      by (unfold fexp, emin, prec, emax; lia).
    rewrite Z.pow_0_r, Z.div_1_r, Z.add_0_r in Hex.
    rewrite <- Hmz. apply Hex; [apply Z.mod_1_r|unfold emax, prec; lia]. }
  destruct (d - 53 - 0) as [|k|k] eqn:Hk; try lia.
  - apply Hround; [|lia]. replace (53 - d) with 0 by lia. lia.
  - apply Hround; [|lia]. rewrite pos_iter_xO. do 2 f_equal. lia.
Qed.

Lemma of_Z_1 : of_Z 1 = S754_finite false 4503599627370496 (-52).
Proof. reflexivity. Qed.

(** Below [2^53], adding 1 to the Number of an integer gives the Number
    of the next integer. *)
Lemma add_one_exact x :
  0 < x < 2 ^ 53 -> add (of_Z x) (of_Z 1) = of_Z (x + 1).
Proof.
  intros Hx.
  set (d := Zdigits2 x).
  assert (Hd : 1 <= d <= 53).
  { unfold d. split; [destruct x; cbn; lia|]. apply Zdigits2_le; lia. }
  rewrite (of_Z_small x) by (fold d; lia). fold d. rewrite of_Z_1.
  unfold add. cbn [SFadd cond_Zopp].
  assert (Hpow : 0 < 2 ^ (53 - d)) by (apply Z.pow_pos_nonneg; lia).
  set (mx := Z.to_pos (x * 2 ^ (53 - d))).
  assert (Hmx : Z.pos mx = x * 2 ^ (53 - d)) by (unfold mx; rewrite Z2Pos.id; nia).
  replace (Z.min (d - 53) (-52)) with (-52) by lia.
  assert (Hl : Z.pos (fst (shl_align mx (d - 53) (-52))) = x * 2 ^ 52).
  { unfold shl_align. destruct (-52 - (d - 53)) as [|k|k] eqn:Hk; try lia; cbn [fst].
    - rewrite Hmx. do 2 f_equal. lia.
    - rewrite pos_iter_xO, Hmx, <- Z.mul_assoc, <- Z.pow_add_r by lia.
      do 2 f_equal. lia. }
  change (fst (shl_align 4503599627370496 (-52) (-52))) with 4503599627370496%positive.
  rewrite Hl.
  replace (x * 2 ^ 52 + 4503599627370496) with ((x + 1) * 2 ^ 52) by (change (2 ^ 52) with 4503599627370496; lia).
  set (y := x + 1) in *.
  assert (Hy : 0 < y <= 2 ^ 53) by (unfold y; lia).
  set (d' := Zdigits2 y).
  assert (Hd' : 1 <= d' <= 54).
  { unfold d'. split; [destruct y; cbn; lia|].
    apply Zdigits2_le; [|lia]. change (2 ^ 54) with (2 * 2 ^ 53). lia. }
  pose proof (Zdigits2_bounds y ltac:(lia)) as [Hylo Hyhi]. fold d' in Hylo, Hyhi.
  assert (HdM : Zdigits2 (y * 2 ^ 52) = d' + 52) by (by rewrite Zdigits2_shift by lia).
  destruct (y * 2 ^ 52) as [|s|s] eqn:Hs; try (change (2 ^ 52) with 4503599627370496 in Hs; lia).
  unfold binary_normalize, binary_round.
  change (Z.pos (digits2_pos s)) with (Zdigits2 (Z.pos s)). rewrite HdM.
  assert (Hf : fexp prec emax (d' + 52 + -52) = d' - 53) by (unfold fexp, emin, prec, emax; lia).
  rewrite Hf. unfold shl_align.
  destruct (d' - 53 - -52) as [|k|k] eqn:Hk; try lia.
  - assert (d' = 1) by lia. assert (y < 2) by (replace d' with 1 in Hyhi by lia; lia).
    unfold y in *. lia.
  - pose proof (binary_round_aux_exact false (Z.pos s) (-52) ltac:(lia)) as Hex.
    cbn zeta in Hex. rewrite HdM in Hex.
    replace (Z.max (fexp prec emax (d' + 52 + -52) - -52) 0) with (d' - 1) in Hex
      by (unfold fexp, emin, prec, emax; lia).
    assert (Hp1 : 0 < 2 ^ (d' - 1)) by (apply Z.pow_pos_nonneg; lia).
    rewrite Hex; cycle 1.
    { rewrite <- Hs. destruct (Z.eq_dec d' 54) as [->|Hne].
      - assert (y = 2 ^ 53) as -> by (change (2 ^ (54 - 1)) with (2 ^ 53) in Hylo; lia).
        reflexivity.
      - replace 52 with ((53 - d') + (d' - 1)) at 1 by lia.
        rewrite Z.pow_add_r, Z.mul_assoc by lia. apply Z.mod_mul. lia. }
    { unfold emax, prec. lia. }
    destruct (Z.eq_dec d' 54) as [He|Hne].
    + assert (y = 2 ^ 53) as Hy53.
      { rewrite He in Hylo. change (2 ^ (54 - 1)) with (2 ^ 53) in Hylo. lia. }
      rewrite <- Hs, He, Hy53. reflexivity.
    + rewrite (of_Z_small y) by (fold d'; lia). fold d'.
      f_equal; [|lia]. f_equal. rewrite <- Hs.
      replace 52 with ((53 - d') + (d' - 1)) at 1 by lia.
      rewrite Z.pow_add_r, Z.mul_assoc by lia.
      apply Z.div_mul. lia.
Qed.

(** X1: [counter++] is exact: on the integers from 0 to [2^53], [incr] is
    the binary64 sum of the Number and 1, the tie at [2^53] that rounds
    back to [2^53] included. *)
Lemma incr_is_add x :
  0 <= x <= MAX_EXACT -> add (of_Z x) (of_Z 1) = of_Z (incr x).
Proof.
  unfold incr, MAX_EXACT. intros Hx.
  destruct (Z.ltb_spec x (2 ^ 53)) as [Hlt|Hge].
  - destruct (Z.eq_dec x 0) as [->|Hne]; [reflexivity|].
    apply add_one_exact. lia.
  - assert (x = 2 ^ 53) as -> by lia. reflexivity.
Qed.

Lemma incr_is_add_witness :
  add (of_Z MAX_EXACT) (of_Z 1) = of_Z (incr MAX_EXACT).
Proof. apply (incr_is_add MAX_EXACT). unfold MAX_EXACT. lia. Defined.

End JsNumberFacts.

(** * Properties of the stream endpoint *)

Module ServerFacts.
Import Server.

#[local] Arguments event_line : simpl never.
#[local] Arguments data_line : simpl never.
#[local] Arguments JsNumber.incr : simpl never.
#[local] Arguments sample : simpl never.

Lemma handler_lookup rq s :
  conns (handler rq s) !! rq = Some (handler_connection s).
Proof. unfold handler; simpl. by rewrite lookup_insert_eq. Qed.

Lemma handler_lookup_ne rq rq' s :
  rq <> rq' -> conns (handler rq s) !! rq' = conns s !! rq'.
Proof. intros Hne. unfold handler; simpl. by rewrite lookup_insert_ne. Qed.

Lemma handler_timers rq s t :
  timers (handler rq s) !! t =
    if decide (t = S (nextTimer s)) then Some (mkTimer (randomTick rq) 2000)
    else if decide (t = nextTimer s) then Some (mkTimer (counterTick rq) 1000)
    else timers s !! t.
Proof.
  unfold handler; simpl.
  repeat case_decide; subst; simplify_map_eq; try done; lia.
Qed.

(** A turn of the loop belongs to exactly one request. *)
Lemma step_label s ev s' :
  step s ev = Some s' -> exists rq e, label s ev = Some (rq, e).
Proof.
  destruct ev as [rq | t rnd | rq]; simpl; eauto.
  destruct (timers s !! t) as [tm|]; simpl; [|done].
  destruct (callback tm); eauto.
Qed.

(** ... and leaves the variables of every other request alone. *)
Lemma step_other s ev s' rq rq' e :
  step s ev = Some s' -> label s ev = Some (rq', e) -> rq' <> rq ->
  conns s' !! rq = conns s !! rq.
Proof.
  destruct ev as [r | t rnd | r]; simpl.
  - destruct (conns s !! r) eqn:E; [done|]. intros; simplify_eq.
    by apply handler_lookup_ne.
  - destruct (timers s !! t) as [tm|]; simpl; [|done].
    destruct (callback tm) as [r|r];
      [|destruct (JsNumber.is_random rnd); [|done]];
      destruct (conns s !! r) eqn:E; simpl;
      intros; simplify_eq; simpl; by rewrite lookup_insert_ne.
  - destruct (conns s !! r) as [k|] eqn:E; simpl; [|done].
    destruct (closed k); [done|]. intros; simplify_eq; simpl.
    by rewrite lookup_insert_ne.
Qed.

(** What a turn does to the request it belongs to. *)
Lemma step_own s ev s' rq e :
  step s ev = Some s' -> label s ev = Some (rq, e) ->
  match e with
  | cOpen => conns s !! rq = None /\ conns s' = conns (handler rq s)
  | cCounter => exists k, conns s !! rq = Some k /\
                          conns s' !! rq = Some (counterCallback k)
  | cRandom rnd => exists k, conns s !! rq = Some k /\
                             JsNumber.is_random rnd = true /\
                             conns s' !! rq = Some (randomCallback rnd k)
  | cClose => exists k, conns s !! rq = Some k /\ closed k = false /\
                        conns s' !! rq =
                          Some (mkConnection (res k) (counter k) (counterInterval k)
                                             (randomInterval k) true)
  end.
Proof.
  destruct ev as [r | t rnd | r]; simpl.
  - destruct (conns s !! r) eqn:E; [done|]. intros; by simplify_eq.
  - destruct (timers s !! t) as [tm|]; simpl; [|done].
    destruct (callback tm) as [r|r];
      [|destruct (JsNumber.is_random rnd) eqn:Hr; [|done]];
      destruct (conns s !! r) eqn:E; simpl;
      intros; simplify_eq; simpl; eexists; rewrite lookup_insert_eq; eauto.
  - destruct (conns s !! r) as [k|] eqn:E; simpl; [|done].
    destruct (closed k) eqn:Hc; [done|]. intros; simplify_eq; simpl.
    eexists; rewrite lookup_insert_eq; eauto.
Qed.

(** *** The stream of one request along a run *)

(** From a state where the request is live: its body grows by the
    frames of its timer events, [counter] follows them, and nothing
    else of its closure changes but [closed]. *)
Lemma run_live rq evs : forall s s' k,
  run s evs = Some s' -> conns s !! rq = Some k ->
  exists k', conns s' !! rq = Some k' /\
    body (res k') = body (res k) ++ flat_map frame (emitted (counter k) (history rq s evs)) /\
    counter k' = counter_after (counter k) (history rq s evs) /\
    headers (res k') = headers (res k) /\
    counterInterval k' = counterInterval k /\
    randomInterval k' = randomInterval k.
Proof.
  induction evs as [|ev evs IH]; intros s s' k Hrun Hk; simpl in *.
  { simplify_eq. exists k. by rewrite app_nil_r. }
  destruct (step s ev) as [s1|] eqn:Hstep; simpl in Hrun; [|done].
  destruct (step_label _ _ _ Hstep) as (rq' & e & Hl). rewrite Hl.
  destruct (decide (rq' = rq)) as [->|Hne].
  - pose proof (step_own _ _ _ _ _ Hstep Hl) as Hown.
    destruct e as [| |rnd|].
    + destruct Hown as [Hnone _]. congruence.
    + destruct Hown as (k0 & Hk0 & Hk1). simplify_eq.
      destruct (IH _ _ _ Hrun Hk1) as (k' & ? & Hb & Hc & ? & ? & ?).
      exists k'. simpl in *. rewrite Hb, Hc, <- !app_assoc. done.
    + destruct Hown as (k0 & Hk0 & _ & Hk1). simplify_eq.
      destruct (IH _ _ _ Hrun Hk1) as (k' & ? & Hb & Hc & ? & ? & ?).
      exists k'. simpl in *. rewrite Hb, Hc, <- !app_assoc. done.
    + destruct Hown as (k0 & Hk0 & _ & Hk1). simplify_eq.
      destruct (IH _ _ _ Hrun Hk1) as (k' & ? & Hb & Hc & ? & ? & ?).
      exists k'. simpl in *. done.
  - rewrite <- (step_other _ _ _ _ _ _ Hstep Hl Hne) in Hk.
    eauto.
Qed.

(** From a state where the request is unknown: either it never arrives,
    or its history starts with the handler and its body with the
    [connected] frame. *)
Lemma run_fresh rq evs : forall s s',
  run s evs = Some s' -> conns s !! rq = None ->
  (conns s' !! rq = None /\ history rq s evs = []) \/
  exists k' h, history rq s evs = cOpen :: h /\
    conns s' !! rq = Some k' /\
    body (res k') = frame connected ++ flat_map frame (emitted 0 h) /\
    counter k' = counter_after 0 h /\
    headers (res k') = headers (res (handler_connection s)).
Proof.
  induction evs as [|ev evs IH]; intros s s' Hrun Hk; simpl in *.
  { simplify_eq. by left. }
  destruct (step s ev) as [s1|] eqn:Hstep; simpl in Hrun; [|done].
  destruct (step_label _ _ _ Hstep) as (rq' & e & Hl). rewrite Hl.
  destruct (decide (rq' = rq)) as [->|Hne].
  - pose proof (step_own _ _ _ _ _ Hstep Hl) as Hown.
    destruct e as [| |rnd|];
      [|destruct Hown as (? & ? & _); congruence ..].
    destruct Hown as [_ Hc]. right.
    pose proof (handler_lookup rq s) as Hh. rewrite <- Hc in Hh.
    destruct (run_live rq _ _ _ _ Hrun Hh) as (k' & ? & Hb & Hn & Hhd & _).
    exists k', (history rq s1 evs). simpl in *. done.
  - rewrite <- (step_other _ _ _ _ _ _ Hstep Hl Hne) in Hk.
    eauto.
Qed.

(** *** Reading a body back *)

Lemma frames_frame e chunks :
  frames (frame e ++ chunks) = (event_line (name e), data_line (payload e)) :: frames chunks.
Proof. reflexivity. Qed.

Lemma frames_flat_map evs :
  frames (flat_map frame evs) = map (fun e => (event_line (name e), data_line (payload e))) evs.
Proof.
  induction evs as [|e evs IH]; [done|].
  cbn [flat_map map]. by rewrite frames_frame, IH.
Qed.

Lemma event_line_counter e :
  event_line (name e) = event_line "counter" <-> exists n, e = counterEv n.
Proof.
  split; [|intros [n ->]; done].
  destruct e; [by vm_compute | by eauto | by vm_compute].
Qed.

Lemma event_line_random e :
  event_line (name e) = event_line "random" <-> exists v, e = randomEv v.
Proof.
  split; [|intros [n ->]; done].
  destruct e; [by vm_compute | by vm_compute | by eauto].
Qed.

Lemma event_line_connected e :
  event_line (name e) = event_line "connected" <-> e = connected.
Proof.
  split; [|intros ->; done].
  destruct e; [done | by vm_compute | by vm_compute].
Qed.

Lemma payloads_counter evs :
  payloads "counter" (flat_map frame evs) =
    map (fun n => data_line (JObject [("count", JInteger n)])) (counts evs).
Proof.
  unfold payloads, counts. rewrite frames_flat_map.
  induction evs as [|e evs IH]; [done|].
  cbn [map omap]. rewrite filter_cons. cbn [fst].
  case_decide as He.
  - apply event_line_counter in He as [n ->]. cbn. by rewrite IH.
  - rewrite IH. by destruct e.
Qed.

Lemma payloads_random evs :
  payloads "random" (flat_map frame evs) =
    map (fun v => data_line (JObject [("number", v)])) (numbers evs).
Proof.
  unfold payloads, numbers. rewrite frames_flat_map.
  induction evs as [|e evs IH]; [done|].
  cbn [map omap]. rewrite filter_cons. cbn [fst].
  case_decide as He.
  - apply event_line_random in He as [n ->]. cbn. by rewrite IH.
  - rewrite IH. by destruct e.
Qed.

Lemma emitted_not_connected h : forall n, Forall (fun e => e <> connected) (emitted n h).
Proof.
  induction h as [|[| |rnd|] h IH]; intros n; cbn [emitted]; auto.
Qed.

Lemma payloads_connected evs :
  Forall (fun e => e <> connected) evs ->
  payloads "connected" (flat_map frame evs) = [].
Proof.
  unfold payloads. rewrite frames_flat_map.
  induction 1 as [|e evs He _ IH]; [done|].
  cbn [map]. rewrite filter_cons. cbn [fst].
  case_decide as Hc; [|done].
  by apply event_line_connected in Hc.
Qed.

(** The body of request 0 after [demo]: the largest value below 1 that
    [Math.random()] can return gives the number 99. *)
Example demo_body :
  exists s k, run init demo = Some s /\ conns s !! 0%nat = Some k /\
    body (res k) =
      [event_line "connected"; data_line (payload connected);
       event_line "counter"; data_line (JObject [("count", JInteger 1)]);
       event_line "random"; data_line (JObject [("number", JInteger 99)]);
       event_line "counter"; data_line (JObject [("count", JInteger 2)])].
Proof. eexists _, _. split_and!; vm_compute; reflexivity. Qed.

(** *** The counter *)

Lemma incr_range n :
  0 <= n <= JsNumber.MAX_EXACT -> 0 <= JsNumber.incr n <= JsNumber.MAX_EXACT.
Proof. unfold JsNumber.incr. case_match; lia. Qed.

Lemma incr_min n i :
  0 <= n <= JsNumber.MAX_EXACT -> 0 <= i ->
  Z.min (JsNumber.incr n + i) JsNumber.MAX_EXACT = Z.min (n + (i + 1)) JsNumber.MAX_EXACT.
Proof. unfold JsNumber.incr. case_match; lia. Qed.

(** After [i] increments from [n] the counter holds [n + i], capped at
    [2^53]. *)
Lemma counts_emitted h : forall n,
  0 <= n <= JsNumber.MAX_EXACT ->
  counts (emitted n h) =
    map (fun i => Z.min (n + Z.of_nat i) JsNumber.MAX_EXACT)
        (seq 1 (length (counts (emitted n h)))).
Proof.
  induction h as [|[| |rnd|] h IH]; intros n Hn; cbn [emitted]; auto;
    [|by apply IH].
  change (counts (counterEv ?c :: ?l)) with (c :: counts l).
  cbn [length seq map]. f_equal.
  - unfold JsNumber.incr. case_match; lia.
  - rewrite (IH (JsNumber.incr n)) at 1 by by apply incr_range.
    rewrite <- (seq_shift _ 1), map_map. apply map_ext. intros i.
    rewrite incr_min by lia. f_equal. lia.
Qed.

(** From the start of the process: a live request has a history, which
    begins with its handler, and its response is what that history
    wrote. *)
Lemma stream_of evs s rq k :
  run init evs = Some s -> conns s !! rq = Some k ->
  exists h, history rq init evs = cOpen :: h /\
    body (res k) = flat_map frame (connected :: emitted 0 h) /\
    counter k = counter_after 0 h /\
    headers (res k) = headers (res (handler_connection init)).
Proof.
  intros Hrun Hk.
  destruct (run_fresh rq _ _ _ Hrun (lookup_empty _)) as [[Hn _]|(k' & h & Hh & Hk' & Hb & Hc & Hhd)].
  - congruence.
  - simplify_eq. exists h. done.
Qed.

Lemma counter_payloads_of_stream h :
  payloads "counter" (flat_map frame (connected :: emitted 0 h)) =
    map (fun i => data_line (JObject [("count", JInteger (Z.min (Z.of_nat i) JsNumber.MAX_EXACT))]))
        (seq 1 (length (payloads "counter" (flat_map frame (connected :: emitted 0 h))))).
Proof.
  rewrite payloads_counter.
  change (counts (connected :: ?l)) with (counts l).
  rewrite length_map.
  rewrite (counts_emitted h 0) at 1 by (unfold JsNumber.MAX_EXACT; lia).
  rewrite map_map. apply map_ext. intros i. do 4 f_equal.
Qed.

Lemma length_counts_emitted h : forall n,
  length (counts (emitted n h)) = counter_ticks h.
Proof.
  induction h as [|[| |rnd|] h IH]; intros n; cbn [emitted counter_ticks].
  - done.
  - apply IH.
  - change (counts (counterEv ?c :: ?l)) with (c :: counts l).
    cbn [length]. by rewrite IH.
  - change (counts (randomEv ?c :: ?l)) with (counts l). apply IH.
  - apply IH.
Qed.

(** C1: on every connection each run of the counter callback writes one
    [counter] frame, and the data lines of these frames are, in order,
    those of the counts 1, 2, 3, ...: the first carries 1 and each one
    the count of the one before plus 1. This holds of every run in which
    the callback has run at most [2^53] times on the connection, the
    range in which [counter++] is exact. *)
Theorem C1_counter_sequence evs s rq k :
  run init evs = Some s -> conns s !! rq = Some k ->
  Z.of_nat (counter_ticks (history rq init evs)) <= JsNumber.MAX_EXACT ->
  payloads "counter" (body (res k)) =
    map (fun i => data_line (JObject [("count", JInteger (Z.of_nat i))]))
        (seq 1 (counter_ticks (history rq init evs))).
Proof.
  intros Hrun Hk Hle.
  destruct (stream_of _ _ _ _ Hrun Hk) as (h & Hh & -> & _).
  rewrite Hh in Hle |- *. cbn [counter_ticks] in Hle |- *.
  rewrite payloads_counter.
  change (counts (connected :: ?l)) with (counts l).
  rewrite (counts_emitted h 0) by (unfold JsNumber.MAX_EXACT; lia).
  rewrite length_counts_emitted, map_map.
  apply map_ext_in. intros i Hi. apply in_seq in Hi.
  replace (Z.min (0 + Z.of_nat i) JsNumber.MAX_EXACT) with (Z.of_nat i) by lia.
  reflexivity.
Qed.

Lemma C1_counter_sequence_witness :
  exists s k, run init demo = Some s /\ conns s !! 0%nat = Some k /\
    payloads "counter" (body (res k)) =
      map (fun i => data_line (JObject [("count", JInteger (Z.of_nat i))]))
          (seq 1 (counter_ticks (history 0%nat init demo))).
Proof.
  eexists _, _.
  split; [vm_compute; reflexivity|].
  split; [vm_compute; reflexivity|].
  eapply (C1_counter_sequence demo _ 0%nat); [vm_compute; reflexivity..|].
  vm_compute. discriminate.
Defined.

(** A timer that is active keeps firing: [n] ticks of the counter timer
    of a request are a run, and they are [n] counter events of it. *)
Lemma run_ticks rnd rq t n : forall s k,
  conns s !! rq = Some k ->
  timers s !! t = Some (mkTimer (counterTick rq) 1000) ->
  exists s', run s (repeat (Timeout t rnd) n) = Some s' /\
             history rq s (repeat (Timeout t rnd) n) = repeat cCounter n.
Proof.
  induction n as [|n IH]; intros s k Hk Ht; cbn [repeat run history].
  { eauto. }
  assert (Hstep : step s (Timeout t rnd) = Some (update rq (counterCallback k) s)).
  { cbn [step]. rewrite Ht. cbn. rewrite Hk. done. }
  rewrite Hstep. cbn [label]. rewrite Ht. cbn.
  rewrite decide_True by done.
  destruct (IH (update rq (counterCallback k) s) (counterCallback k)) as (s' & Hrun & Hh).
  - cbn. by rewrite lookup_insert_eq.
  - done.
  - exists s'. by rewrite Hh.
Qed.

Lemma length_counts_ticks n : forall m,
  length (counts (emitted m (repeat cCounter n))) = n.
Proof.
  induction n as [|n IH]; intros m; [done|].
  cbn [repeat emitted].
  change (counts (counterEv ?c :: ?l)) with (c :: counts l).
  cbn [length]. by rewrite IH.
Qed.

(** Past that range the data lines no longer count up: after
    [2^53 + 1] runs of the callback the last count written is [2^53]
    again. *)
Lemma ticking_saturates n :
  Z.of_nat n = 2 ^ 53 + 1 ->
  exists s k,
    run init (ticking n) = Some s /\
    conns s !! 0%nat = Some k /\
    payloads "counter" (body (res k)) <>
      map (fun i => data_line (JObject [("count", JInteger (Z.of_nat i))]))
          (seq 1 (length (payloads "counter" (body (res k))))).
Proof.
  intros Hn'.
  destruct (run_ticks (S754_zero false) 0%nat 0%nat n (handler 0 init) (handler_connection init))
    as (s & Hrun & Hh); [apply handler_lookup | by rewrite handler_timers |].
  assert (Hrun' : run init (ticking n) = Some s) by exact Hrun.
  assert (is_Some (conns s !! 0%nat)) as [k Hk].
  { destruct (run_live 0%nat _ _ _ _ Hrun (handler_lookup 0%nat init)) as (k & Hk & _). eauto. }
  exists s, k. split; [done|]. split; [done|].
  destruct (stream_of _ _ _ _ Hrun' Hk) as (h & Hh' & Hb & _).
  assert (h = repeat cCounter n) as ->.
  { unfold ticking in Hh'. cbn [history] in Hh'.
    change (step init (Request 0)) with (Some (handler 0 init)) in Hh'.
    cbn [label] in Hh'. rewrite decide_True in Hh' by done. congruence. }
  rewrite Hb, counter_payloads_of_stream.
  rewrite !length_map, length_seq.
  rewrite payloads_counter.
  change (counts (connected :: ?l)) with (counts l).
  rewrite length_map, length_counts_ticks.
  intros Heq. rewrite map_ext_in_iff in Heq.
  specialize (Heq n). rewrite in_seq in Heq.
  assert (Hbad : data_line (JObject [("count", JInteger (Z.min (Z.of_nat n) JsNumber.MAX_EXACT))])
                 = data_line (JObject [("count", JInteger (Z.of_nat n))])) by (apply Heq; lia).
  rewrite Hn' in Hbad.
  assert (Hne : data_line (JObject [("count", JInteger (Z.min (2 ^ 53 + 1) JsNumber.MAX_EXACT))])
                <> data_line (JObject [("count", JInteger (2 ^ 53 + 1))])) by (by vm_compute).
  contradiction.
Qed.

(** *** The first frame *)

Lemma run_timers_owned evs : forall s s',
  timers_owned s -> run s evs = Some s' -> timers_owned s'.
Proof.
  induction evs as [|ev evs IH]; intros s s' Hs Hrun; cbn [run] in Hrun.
  { by simplify_eq. }
  destruct (step s ev) as [s1|] eqn:Hstep; cbn in Hrun; [|done].
  apply (IH s1 s'); [|done]. clear IH Hrun s' evs.
  intros t tm Ht.
  destruct ev as [r | t0 rnd | r]; cbn [step] in Hstep.
  - destruct (conns s !! r) eqn:E; [done|]. simplify_eq.
    rewrite handler_timers in Ht.
    repeat case_decide; simplify_eq; cbn [callback].
    + exists (handler_connection s). by rewrite handler_lookup.
    + exists (handler_connection s). by rewrite handler_lookup.
    + specialize (Hs _ _ Ht).
      destruct (callback tm) as [r'|r']; destruct Hs as (k & Hk & <-);
        (exists k; split; [|done]); rewrite handler_lookup_ne; congruence.
  - destruct (timers s !! t0) as [tm0|] eqn:Ht0; cbn in Hstep; [|done].
    destruct (callback tm0) as [r|r];
      [|destruct (JsNumber.is_random rnd); [|done]];
      destruct (conns s !! r) as [k0|] eqn:E;
      cbn in Hstep; simplify_eq; cbn in Ht |- *; specialize (Hs _ _ Ht);
      destruct (callback tm) as [r'|r']; destruct Hs as (k & Hk & <-);
      (destruct (decide (r = r')) as [->|Hne];
       [simplify_eq; eexists; rewrite lookup_insert_eq; split; [done|]; done
       |exists k; by rewrite lookup_insert_ne]).
  - destruct (conns s !! r) as [k0|] eqn:E; cbn in Hstep; [|done].
    destruct (closed k0); [done|]. simplify_eq. cbn in Ht |- *.
    apply lookup_delete_Some in Ht as [_ Ht].
    apply lookup_delete_Some in Ht as [_ Ht].
    specialize (Hs _ _ Ht).
    destruct (callback tm) as [r'|r']; destruct Hs as (k & Hk & <-);
      (destruct (decide (r = r')) as [->|Hne];
       [simplify_eq; eexists; rewrite lookup_insert_eq; split; [done|]; done
       |exists k; by rewrite lookup_insert_ne]).
Qed.

Lemma init_timers_owned : timers_owned init.
Proof. intros t tm Ht. cbn [init timers] in Ht. by rewrite lookup_empty in Ht. Qed.

(** C3: in every state the process can reach, the body of each
    connection starts with the [connected] frame, whose [message] is a
    non-empty string; that frame occurs once, and every later frame is
    a [counter] or [random] frame written by a timer event of the
    connection. A timer exists only for a connection whose body
    already starts with the [connected] frame. *)
Theorem C3_connected_first evs s :
  run init evs = Some s ->
  (forall rq k, conns s !! rq = Some k ->
     exists msg h,
       payload connected = JObject [("message", JString msg)] /\
       msg <> EmptyString /\
       history rq init evs = cOpen :: h /\
       body (res k) =
         event_line "connected" :: data_line (payload connected)
           :: flat_map frame (emitted 0 h) /\
       payloads "connected" (body (res k)) = [data_line (payload connected)] /\
       Forall (fun e => name e = "counter" \/ name e = "random") (emitted 0 h)) /\
  (forall t tm, timers s !! t = Some tm ->
     exists rq k rest,
       (callback tm = counterTick rq \/ callback tm = randomTick rq) /\
       conns s !! rq = Some k /\
       body (res k) = event_line "connected" :: data_line (payload connected) :: rest).
Proof.
  intros Hrun.
  assert (Hconn : forall rq k, conns s !! rq = Some k ->
            exists h, history rq init evs = cOpen :: h /\
              body (res k) = frame connected ++ flat_map frame (emitted 0 h)).
  { intros rq k Hk. destruct (stream_of _ _ _ _ Hrun Hk) as (h & Hh & Hb & _). eauto. }
  split.
  - intros rq k Hk. destruct (Hconn _ _ Hk) as (h & Hh & Hb).
    exists "Connected to event stream", h.
    split_and!; try done.
    + rewrite Hb. change (frame connected ++ ?l) with (flat_map frame [connected] ++ l).
      unfold payloads. cbn [flat_map app frame frames filter map].
      rewrite filter_cons_True by done. cbn [map snd]. f_equal.
      apply (payloads_connected (emitted 0 h)), emitted_not_connected.
    + clear. generalize 0. induction h as [|[| |rnd|] h IH]; intros n; cbn [emitted]; auto.
  - intros t tm Ht.
    pose proof (run_timers_owned _ _ _ init_timers_owned Hrun t tm Ht) as Ho.
    destruct (callback tm) as [rq|rq]; destruct Ho as (k & Hk & _);
      destruct (Hconn _ _ Hk) as (h & _ & Hb);
      exists rq, k, (flat_map frame (emitted 0 h)); auto.
Qed.

Lemma C3_connected_first_witness :
  exists s, run init demo = Some s /\
    (forall rq k, conns s !! rq = Some k ->
       exists msg h,
         payload connected = JObject [("message", JString msg)] /\
         msg <> EmptyString /\
         history rq init demo = cOpen :: h /\
         body (res k) =
           event_line "connected" :: data_line (payload connected)
             :: flat_map frame (emitted 0 h) /\
         payloads "connected" (body (res k)) = [data_line (payload connected)] /\
         Forall (fun e => name e = "counter" \/ name e = "random") (emitted 0 h)) /\
    (forall t tm, timers s !! t = Some tm ->
       exists rq k rest,
         (callback tm = counterTick rq \/ callback tm = randomTick rq) /\
         conns s !! rq = Some k /\
         body (res k) = event_line "connected" :: data_line (payload connected) :: rest).
Proof.
  eexists. split; [vm_compute; reflexivity|].
  apply (C3_connected_first demo). vm_compute; reflexivity.
Defined.

(** *** Closing *)

Lemma step_timers_live s ev s' :
  timers_live s -> step s ev = Some s' -> timers_live s'.
Proof.
  intros Hs Hstep rq k Hk.
  destruct ev as [r | t0 rnd | r]; cbn [step] in Hstep.
  - destruct (conns s !! r) eqn:E; [done|]. simplify_eq.
    destruct (decide (r = rq)) as [->|Hne].
    + rewrite handler_lookup in Hk. simplify_eq.
      cbn [handler_connection counterInterval randomInterval closed].
      rewrite !handler_timers. cbn [handler nextTimer setInterval].
      repeat case_decide; try lia. split_and!; try lia; done.
    + rewrite handler_lookup_ne in Hk by done.
      destruct (Hs _ _ Hk) as (Hc & Hr & Hlive).
      rewrite !handler_timers. cbn [handler nextTimer setInterval].
      repeat case_decide; try lia. split_and!; try lia; done.
  - destruct (timers s !! t0) as [tm0|] eqn:Ht0; cbn in Hstep; [|done].
    destruct (callback tm0) as [r|r];
      [|destruct (JsNumber.is_random rnd); [|done]];
      destruct (conns s !! r) as [k0|] eqn:E;
      cbn in Hstep; simplify_eq; cbn in Hk |- *;
      (destruct (decide (r = rq)) as [->|Hne];
       [rewrite lookup_insert_eq in Hk; simplify_eq; exact (Hs _ _ E)
       |rewrite lookup_insert_ne in Hk by done; exact (Hs _ _ Hk)]).
  - destruct (conns s !! r) as [k0|] eqn:E; cbn in Hstep; [|done].
    destruct (closed k0) eqn:Hc0; [done|]. simplify_eq. cbn in Hk |- *.
    destruct (decide (r = rq)) as [->|Hne].
    + rewrite lookup_insert_eq in Hk. simplify_eq. cbn.
      destruct (Hs _ _ E) as (? & ? & _). done.
    + rewrite lookup_insert_ne in Hk by done.
      destruct (Hs _ _ Hk) as (? & ? & Hlive).
      destruct (Hs _ _ E) as (_ & _ & Hlive0).
      split_and!; try done. intros Hopen.
      destruct (Hlive Hopen) as [Hc Hr]. destruct (Hlive0 Hc0) as [Hc' Hr'].
      rewrite !lookup_delete_ne; [done|congruence..].
Qed.

Lemma run_timers_live evs : forall s s',
  timers_live s -> run s evs = Some s' -> timers_live s'.
Proof.
  induction evs as [|ev evs IH]; intros s s' Hs Hrun; cbn [run] in Hrun.
  { by simplify_eq. }
  destruct (step s ev) as [s1|] eqn:Hstep; cbn in Hrun; [|done].
  eauto using step_timers_live.
Qed.

Lemma init_timers_live : timers_live init.
Proof. intros rq k Hk. cbn [init conns] in Hk. by rewrite lookup_empty in Hk. Qed.

(** The close listener leaves no timer of its request behind. *)
Lemma close_no_timer s rq k s' :
  timers_owned s -> conns s !! rq = Some k -> step s (Close rq) = Some s' ->
  timers s' = delete (randomInterval k) (delete (counterInterval k) (timers s)) /\
  no_timer_of rq s' /\
  conns s' !! rq = Some (mkConnection (res k) (counter k) (counterInterval k)
                                      (randomInterval k) true).
Proof.
  intros Ho Hk Hstep. cbn [step] in Hstep. rewrite Hk in Hstep. cbn in Hstep.
  destruct (closed k); [done|]. simplify_eq. cbn.
  split; [done|]. split; [|by rewrite lookup_insert_eq].
  intros t tm Ht. cbn in Ht.
  apply lookup_delete_Some in Ht as [Hr Ht].
  apply lookup_delete_Some in Ht as [Hc Ht].
  specialize (Ho _ _ Ht).
  split; intros Hcb; rewrite Hcb in Ho; destruct Ho as (k0 & Hk0 & Hh); congruence.
Qed.

Lemma label_timer s t rnd rq e :
  label s (Timeout t rnd) = Some (rq, e) ->
  exists tm, timers s !! t = Some tm /\
    ((callback tm = counterTick rq /\ e = cCounter) \/
     (callback tm = randomTick rq /\ e = cRandom rnd)).
Proof.
  cbn [label]. destruct (timers s !! t) as [tm|]; cbn; [|done].
  intros. exists tm. destruct (callback tm); simplify_eq; auto.
Qed.

(** A turn of another request starts no timer of [rq]. *)
Lemma step_no_timer s ev s' rq rq' e :
  step s ev = Some s' -> label s ev = Some (rq', e) -> rq' <> rq ->
  no_timer_of rq s -> no_timer_of rq s'.
Proof.
  intros Hstep Hl Hne Hno t tm Ht.
  destruct ev as [r | t0 rnd | r]; cbn [step] in Hstep.
  - destruct (conns s !! r) eqn:E; [done|]. cbn in Hl. simplify_eq.
    rewrite handler_timers in Ht.
    repeat case_decide; simplify_eq; cbn; [split; congruence..|by eapply Hno].
  - destruct (timers s !! t0) as [tm0|] eqn:Ht0; cbn in Hstep; [|done].
    destruct (callback tm0) as [r|r];
      [|destruct (JsNumber.is_random rnd); [|done]];
      destruct (conns s !! r) as [k0|] eqn:E;
      cbn in Hstep; simplify_eq; cbn in Ht; by eapply Hno.
  - destruct (conns s !! r) as [k0|] eqn:E; cbn in Hstep; [|done].
    destruct (closed k0); [done|]. simplify_eq. cbn in Ht.
    apply lookup_delete_Some in Ht as [_ Ht].
    apply lookup_delete_Some in Ht as [_ Ht]. by eapply Hno.
Qed.

(** After its close, nothing happens to a request any more. *)
Lemma run_closed rq evs : forall s s' k,
  no_timer_of rq s -> conns s !! rq = Some k -> closed k = true ->
  run s evs = Some s' ->
  history rq s evs = [] /\ no_timer_of rq s' /\ conns s' !! rq = Some k.
Proof.
  induction evs as [|ev evs IH]; intros s s' k Hno Hk Hc Hrun; cbn [run history] in *.
  { by simplify_eq. }
  destruct (step s ev) as [s1|] eqn:Hstep; cbn in Hrun; [|done].
  destruct (step_label _ _ _ Hstep) as (rq' & e & Hl). rewrite Hl.
  destruct (decide (rq' = rq)) as [->|Hne].
  - exfalso. pose proof (step_own _ _ _ _ _ Hstep Hl) as Hown.
    destruct ev as [r | t rnd | r].
    + cbn in Hl. simplify_eq. destruct Hown; congruence.
    + apply label_timer in Hl as (tm & Ht & Hcb).
      destruct (Hno _ _ Ht). destruct Hcb as [[? _]|[? _]]; congruence.
    + cbn in Hl. simplify_eq. destruct Hown as (k0 & ? & ? & _). congruence.
  - apply (IH s1 s' k); try done.
    + by eapply step_no_timer.
    + by rewrite (step_other _ _ _ _ _ _ Hstep Hl Hne).
Qed.

(** C2: when the close notification of a connection fires, both of its
    timers are active and the listener clears exactly those two; the
    timers of other connections stay. From then on no timer of the
    connection exists, no event of the loop belongs to it, and its
    response is never written again. *)
Theorem C2_close_cancels_timers evs s rq k s' :
  run init evs = Some s -> conns s !! rq = Some k -> step s (Close rq) = Some s' ->
  timers s !! counterInterval k = Some (mkTimer (counterTick rq) 1000) /\
  timers s !! randomInterval k = Some (mkTimer (randomTick rq) 2000) /\
  timers s' !! counterInterval k = None /\
  timers s' !! randomInterval k = None /\
  no_timer_of rq s' /\
  (forall t tm, timers s !! t = Some tm ->
     callback tm <> counterTick rq -> callback tm <> randomTick rq ->
     timers s' !! t = Some tm) /\
  (forall evs' s'', run s' evs' = Some s'' ->
     history rq s' evs' = [] /\ no_timer_of rq s'' /\
     exists k'', conns s'' !! rq = Some k'' /\ res k'' = res k).
Proof.
  intros Hrun Hk Hstep.
  pose proof (run_timers_owned _ _ _ init_timers_owned Hrun) as Ho.
  pose proof (run_timers_live _ _ _ init_timers_live Hrun) as Hl.
  destruct (close_no_timer _ _ _ _ Ho Hk Hstep) as (Ht & Hno & Hk').
  assert (Hopen : closed k = false).
  { cbn [step] in Hstep. rewrite Hk in Hstep. cbn in Hstep. by destruct (closed k). }
  destruct (Hl _ _ Hk) as (_ & _ & Hlive). destruct (Hlive Hopen) as [Hc Hr].
  split_and!; try done.
  - rewrite Ht. destruct (decide (randomInterval k = counterInterval k)) as [->|?].
    + apply lookup_delete_eq.
    + rewrite lookup_delete_ne by done. apply lookup_delete_eq.
  - rewrite Ht. apply lookup_delete_eq.
  - intros t tm Htm Hnc Hnr. rewrite Ht.
    rewrite !lookup_delete_ne; [done| |]; intros <-; rewrite Htm in *; simplify_eq; done.
  - intros evs' s'' Hrun'.
    destruct (run_closed rq _ _ _ _ Hno Hk' eq_refl Hrun') as (Hh & Hno' & Hk'').
    split_and!; try done. eexists; split; [exact Hk''|done].
Qed.

Lemma C2_close_cancels_timers_witness :
  exists s k s',
    run init demo_open = Some s /\ conns s !! 0%nat = Some k /\
    step s (Close 0) = Some s' /\
    timers s !! counterInterval k = Some (mkTimer (counterTick 0) 1000) /\
    timers s !! randomInterval k = Some (mkTimer (randomTick 0) 2000) /\
    timers s' !! counterInterval k = None /\
    timers s' !! randomInterval k = None /\
    no_timer_of 0 s' /\
    (forall t tm, timers s !! t = Some tm ->
       callback tm <> counterTick 0 -> callback tm <> randomTick 0 ->
       timers s' !! t = Some tm) /\
    (forall evs' s'', run s' evs' = Some s'' ->
       history 0 s' evs' = [] /\ no_timer_of 0 s'' /\
       exists k'', conns s'' !! 0%nat = Some k'' /\ res k'' = res k).
Proof.
  eexists _, _, _.
  split; [vm_compute; reflexivity|].
  split; [vm_compute; reflexivity|].
  split; [vm_compute; reflexivity|].
  eapply (C2_close_cancels_timers demo_open _ 0%nat); vm_compute; reflexivity.
Defined.

(** C5: what a connection receives is a function of its own events
    alone. Two runs in which a request sees the same events (its own
    timer ticks, with the same values of [Math.random()]) give it the
    same response and the same [counter], whatever other requests were
    opened, served or closed in between; a turn of one request leaves the
    closure of every other request as it was; and on each of two
    connections open side by side, the [counter] data lines, if any,
    start with the count 1. *)
Theorem C5_independent_connections :
  (forall evs1 evs2 s1 s2 rq k1 k2,
     run init evs1 = Some s1 -> run init evs2 = Some s2 ->
     conns s1 !! rq = Some k1 -> conns s2 !! rq = Some k2 ->
     history rq init evs1 = history rq init evs2 ->
     res k1 = res k2 /\ counter k1 = counter k2) /\
  (forall s ev s' rq rq' e,
     step s ev = Some s' -> label s ev = Some (rq', e) -> rq' <> rq ->
     conns s' !! rq = conns s !! rq) /\
  (forall evs s rq1 rq2 k1 k2,
     run init evs = Some s -> rq1 <> rq2 ->
     conns s !! rq1 = Some k1 -> conns s !! rq2 = Some k2 ->
     (forall d, hd_error (payloads "counter" (body (res k1))) = Some d ->
                d = data_line (JObject [("count", JInteger 1)])) /\
     (forall d, hd_error (payloads "counter" (body (res k2))) = Some d ->
                d = data_line (JObject [("count", JInteger 1)]))).
Proof.
  split_and!.
  - intros evs1 evs2 s1 s2 rq k1 k2 Hrun1 Hrun2 Hk1 Hk2 Hh.
    destruct (stream_of _ _ _ _ Hrun1 Hk1) as (h1 & Hh1 & Hb1 & Hc1 & Hd1).
    destruct (stream_of _ _ _ _ Hrun2 Hk2) as (h2 & Hh2 & Hb2 & Hc2 & Hd2).
    assert (h1 = h2) as -> by congruence.
    split; [|congruence].
    destruct (res k1), (res k2); cbn in *; congruence.
  - apply step_other.
  - intros evs s rq1 rq2 k1 k2 Hrun _ Hk1 Hk2.
    assert (Hhd : forall h d,
      hd_error (payloads "counter" (flat_map frame (connected :: emitted 0 h))) = Some d ->
      d = data_line (JObject [("count", JInteger 1)])).
    { intros h d. rewrite counter_payloads_of_stream.
      destruct (length _); cbn [seq map hd_error]; [done|].
      intros; by simplify_eq. }
    destruct (stream_of _ _ _ _ Hrun Hk1) as (h1 & _ & -> & _).
    destruct (stream_of _ _ _ _ Hrun Hk2) as (h2 & _ & -> & _).
    eauto.
Qed.

Lemma C5_independent_connections_witness :
  exists s1 s2 k1 k2 k3,
    run init demo = Some s1 /\ run init demo_alone = Some s2 /\
    conns s1 !! 0%nat = Some k1 /\ conns s2 !! 0%nat = Some k2 /\
    conns s1 !! 1%nat = Some k3 /\
    history 0 init demo = history 0 init demo_alone /\
    (res k1 = res k2 /\ counter k1 = counter k2) /\
    (forall d, hd_error (payloads "counter" (body (res k1))) = Some d ->
               d = data_line (JObject [("count", JInteger 1)])) /\
    (forall d, hd_error (payloads "counter" (body (res k3))) = Some d ->
               d = data_line (JObject [("count", JInteger 1)])).
Proof.
  destruct C5_independent_connections as (Hsame & _ & Hfirst).
  eexists _, _, _, _, _.
  split; [vm_compute; reflexivity|].
  split; [vm_compute; reflexivity|].
  split; [vm_compute; reflexivity|].
  split; [vm_compute; reflexivity|].
  split; [vm_compute; reflexivity|].
  split; [vm_compute; reflexivity|].
  split.
  - eapply (Hsame demo demo_alone _ _ 0%nat); vm_compute; reflexivity.
  - eapply (Hfirst demo _ 0%nat 1%nat); [vm_compute; reflexivity | lia | vm_compute; reflexivity ..].
Defined.

(** *** The random number *)

Lemma sample_range rnd :
  JsNumber.is_random rnd = true ->
  exists n, sample rnd = JInteger n /\ 0 <= n < 100.
Proof.
  intros Hr. unfold sample.
  destruct (JsNumberFacts.floor_random_100 rnd Hr) as (n & -> & Hn). eauto.
Qed.

Lemma numbers_emitted h : forall n, numbers (emitted n h) = map sample (draws h).
Proof.
  induction h as [|[| |rnd|] h IH]; intros n; cbn [emitted]; auto.
  - apply IH.
  - change (numbers (randomEv ?v :: ?l)) with (v :: numbers l).
    change (draws (cRandom ?v :: ?l)) with (v :: draws l).
    cbn [map]. by rewrite IH.
Qed.

(** Every value handed to a random callback is one [Math.random()] can
    return. *)
Lemma history_draws rq evs : forall s s',
  run s evs = Some s' ->
  Forall (fun rnd => JsNumber.is_random rnd = true) (draws (history rq s evs)).
Proof.
  induction evs as [|ev evs IH]; intros s s' Hrun; cbn [run history] in *.
  { constructor. }
  destruct (step s ev) as [s1|] eqn:Hstep; cbn in Hrun; [|constructor].
  destruct (step_label _ _ _ Hstep) as (rq' & e & Hl). rewrite Hl.
  destruct (decide (rq' = rq)) as [->|Hne]; [|by eapply IH].
  pose proof (step_own _ _ _ _ _ Hstep Hl) as Hown.
  destruct e as [| |rnd|]; try by eapply IH.
  change (draws (cRandom ?v :: ?l)) with (v :: draws l).
  destruct Hown as (_ & _ & Hr & _). constructor; [done|by eapply IH].
Qed.

(** C6: on every connection, the data line of the i-th [random] event
    carries [Math.floor(x * 100)] for the value [x] that [Math.random()]
    returned in the i-th run of the random callback of that connection,
    one call per event; and each of these numbers is an integer [n] with
    [0 <= n < 100]. *)
Theorem C6_random_range evs s rq k :
  run init evs = Some s -> conns s !! rq = Some k ->
  payloads "random" (body (res k)) =
    map (fun rnd => data_line (JObject [("number", sample rnd)]))
        (draws (history rq init evs)) /\
  Forall (fun d => exists n, d = data_line (JObject [("number", JInteger n)]) /\ 0 <= n < 100)
         (payloads "random" (body (res k))).
Proof.
  intros Hrun Hk.
  destruct (stream_of _ _ _ _ Hrun Hk) as (h & Hh & Hb & _).
  assert (Hp : payloads "random" (body (res k)) =
               map (fun rnd => data_line (JObject [("number", sample rnd)]))
                   (draws (history rq init evs))).
  { rewrite Hb, payloads_random, Hh.
    change (numbers (connected :: ?l)) with (numbers l).
    change (draws (cOpen :: ?l)) with (draws l).
    by rewrite numbers_emitted, map_map. }
  split; [done|]. rewrite Hp.
  apply Forall_map. eapply Forall_impl; [exact (history_draws rq _ _ _ Hrun)|].
  intros rnd Hr. cbn beta. destruct (sample_range rnd Hr) as (n & -> & Hn). eauto.
Qed.

Lemma C6_random_range_witness :
  exists s k,
    run init demo = Some s /\ conns s !! 0%nat = Some k /\
    payloads "random" (body (res k)) =
      map (fun rnd => data_line (JObject [("number", sample rnd)]))
          (draws (history 0 init demo)) /\
    Forall (fun d => exists n, d = data_line (JObject [("number", JInteger n)]) /\ 0 <= n < 100)
           (payloads "random" (body (res k))).
Proof.
  eexists _, _.
  split; [vm_compute; reflexivity|].
  split; [vm_compute; reflexivity|].
  eapply (C6_random_range demo _ 0%nat); vm_compute; reflexivity.
Defined.

End ServerFacts.

(** * Properties of the stream as the client reads it *)

Module WireFacts.
Import Server Wire.

#[local] Arguments String.append : simpl nomatch.

Lemma list_ascii_app a b :
  list_ascii_of_string (a +:+ b) = list_ascii_of_string a ++ list_ascii_of_string b.
Proof.
  induction a as [|c a IH]; cbn [String.append list_ascii_of_string app]; [done|].
  by rewrite IH.
Qed.

Lemma append_assoc (a b c : string) : (a +:+ b) +:+ c = a +:+ (b +:+ c).
Proof. induction a as [|x a IH]; cbn [String.append]; [done|by rewrite IH]. Qed.

(** *** Decimal digits *)

Lemma uint_digits d :
  Forall (fun c => JsonText.is_digit c = true)
         (list_ascii_of_string (NilEmpty.string_of_uint d)).
Proof. induction d; cbn [NilEmpty.string_of_uint list_ascii_of_string]; by constructor. Qed.

Lemma digits_span ds : forall c r,
  Forall (fun c => JsonText.is_digit c = true) ds -> JsonText.is_digit c = false ->
  JsonText.digits (ds ++ c :: r) = (ds, c :: r).
Proof.
  induction ds as [|d ds IH]; intros c r Hds Hc; cbn [app JsonText.digits].
  - by rewrite Hc.
  - inversion Hds as [|? ? Hd Hds']; subst. by rewrite Hd, IH.
Qed.

(** The digits of a positive integer: at least one, and no leading zero. *)
Lemma to_uint_head p :
  exists c cs, list_ascii_of_string (NilEmpty.string_of_uint (Pos.to_uint p)) = c :: cs /\
               Ascii.eqb c "0" = false.
Proof.
  pose proof (DecimalPos.Unsigned.to_of (Pos.to_uint p)) as Hn.
  rewrite DecimalPos.Unsigned.of_to in Hn. cbn [N.to_uint] in Hn.
  pose proof (Unsigned.to_uint_nonzero p) as Hnz.
  pose proof (nzhead_nonzero (Pos.to_uint p)) as Hh.
  unfold Decimal.unorm in Hn.
  destruct (Decimal.nzhead (Pos.to_uint p)) eqn:E; try congruence;
    try (rewrite Hn; cbn; eauto).
Qed.

Lemma decimal_to_uint p :
  JsonText.decimal (list_ascii_of_string (NilEmpty.string_of_uint (Pos.to_uint p))) = Z.pos p.
Proof.
  unfold JsonText.decimal.
  rewrite string_of_list_ascii_of_string, NilEmpty.usu.
  unfold Z.of_uint. by rewrite DecimalPos.Unsigned.of_to.
Qed.

Lemma toString_pos p :
  JsNumber.toString (Z.pos p) = NilEmpty.string_of_uint (Pos.to_uint p).
Proof.
  unfold JsNumber.toString. cbn [Z.to_int NilZero.string_of_int NilZero.string_of_uint].
  pose proof (Unsigned.to_uint_nonnil p). by destruct (Pos.to_uint p).
Qed.


Lemma digit_not_minus c : JsonText.is_digit c = true -> Ascii.eqb "-" c = false.
Proof.
  intros Hc. destruct (Ascii.eqb_spec "-" c) as [<-|]; [|done]. by vm_compute in Hc.
Qed.

(** An integer literal followed by a closing brace. *)
Lemma number_integer c cs r :
  Forall (fun c => JsonText.is_digit c = true) (c :: cs) ->
  (cs = [] \/ Ascii.eqb c "0" = false) ->
  JsonText.number ((c :: cs) ++ "}"%char :: r) =
    Some (JsonText.to_number false (JsonText.decimal (c :: cs)) 0, "}"%char :: r).
Proof.
  intros Hds Hlead. unfold JsonText.number.
  assert (Hc : JsonText.is_digit c = true) by (by inversion Hds).
  cbn [app JsonText.strip]. rewrite (digit_not_minus c Hc).
  change (c :: cs ++ "}"%char :: r) with ((c :: cs) ++ "}"%char :: r).
  rewrite digits_span by done.
  assert (Hok : match c :: cs with
                | [] => false
                | [_] => true
                | d :: _ => negb (Ascii.eqb d "0")
                end = true).
  { destruct cs; [done|]. destruct Hlead as [Hnil|Hz]; [done|by rewrite Hz]. }
  rewrite Hok. cbn. by rewrite app_nil_r.
Qed.

Lemma to_number_integer z : 0 <= z -> JsonText.to_number false z 0 = JsNumber.of_Z z.
Proof.
  intros Hz. destruct z as [|p|p]; [done| |lia].
  unfold JsonText.to_number, JsNumber.of_Z. cbn [Z.leb Z.compare Z.pow].
  by rewrite Z.mul_1_r.
Qed.

(** The decimal digits of a count, then a brace: the reader takes them
    for the Number nearest to the count. *)
Lemma number_toString z r :
  0 <= z ->
  JsonText.number (list_ascii_of_string (JsNumber.toString z) ++ "}"%char :: r) =
    Some (JsNumber.of_Z z, "}"%char :: r) /\
  exists c cs, list_ascii_of_string (JsNumber.toString z) = c :: cs /\
               JsonText.is_digit c = true.
Proof.
  intros Hz. destruct z as [|p|p]; [|clear Hz|lia].
  { split; [by vm_compute|]. exists "0"%char, []. by vm_compute. }
  rewrite toString_pos.
  destruct (to_uint_head p) as (c & cs & Hcs & Hc0).
  pose proof (uint_digits (Pos.to_uint p)) as Hds.
  pose proof (decimal_to_uint p) as Hdec.
  rewrite Hcs in *.
  split.
  - rewrite number_integer by auto. by rewrite Hdec, to_number_integer.
  - exists c, cs. split; [done|]. by inversion Hds.
Qed.

Lemma digit_code c : JsonText.is_digit c = true -> 48 <= JsonText.code c <= 57.
Proof. unfold JsonText.is_digit. intros H. apply andb_prop in H as [H1 H2]. lia. Qed.

Lemma value_integer f z r :
  0 <= z ->
  JsonText.value (S f) (list_ascii_of_string (JsNumber.toString z) ++ "}"%char :: r) =
    Some (vNumber (JsNumber.of_Z z), "}"%char :: r).
Proof.
  intros Hz. destruct (number_toString z r Hz) as (Hnum & c & cs & Hcs & Hc).
  rewrite Hcs in *. cbn [JsonText.value app JsonText.skip_ws].
  pose proof (digit_code c Hc) as Hcode.
  assert (Hws : JsonText.is_ws c = false).
  { unfold JsonText.is_ws.
    repeat match goal with
           | |- context [?a =? ?b] => destruct (Z.eqb_spec a b); [lia|]
           end. done. }
  rewrite Hws.
  repeat match goal with
         | |- context [JsonText.code c =? ?b] => destruct (Z.eqb_spec (JsonText.code c) b); [lia|]
         end.
  rewrite Hc. cbn [orb].
  change (c :: cs ++ "}"%char :: r) with ((c :: cs) ++ "}"%char :: r).
  by rewrite Hnum.
Qed.

Lemma stringify_member_chars key z :
  list_ascii_of_string (JSON.stringify (JObject [(key, JInteger z)])) =
    list_ascii_of_string ("{" +:+ JSON.quote key +:+ ":") ++
    list_ascii_of_string (JsNumber.toString z) ++ ["}"%char].
Proof.
  cbn [JSON.stringify map String.concat fst snd].
  rewrite !list_ascii_app, <- !app_assoc. reflexivity.
Qed.

(** A serialized [count] or [number] member reads back as an object with
    that one property, whose value is the Number of the integer. *)
Lemma parse_member key z :
  key = "count"%string \/ key = "number"%string -> 0 <= z ->
  JsonText.parse (JSON.stringify (JObject [(key, JInteger z)])) =
    Some (js_of (JObject [(key, JInteger z)])).
Proof.
  intros Hkey Hz. unfold JsonText.parse.
  rewrite stringify_member_chars.
  pose proof (fun g => value_integer g z [] Hz) as Hv.
  remember (list_ascii_of_string (JsNumber.toString z)) as ds eqn:Hds. clear Hds.
  set (cs := list_ascii_of_string ("{" +:+ JSON.quote key +:+ ":") ++ ds ++ ["}"%char]).
  assert (Hfuel : exists g, (2 * length cs + 2 = S (S (S g)))%nat).
  { assert (1 <= length cs)%nat by (unfold cs; rewrite !length_app; cbn [length]; lia).
    exists (2 * length cs - 1)%nat. lia. }
  unfold cs in *. clear cs.
  destruct Hfuel as [g ->].
  specialize (Hv g).
  remember (S g) as g1 eqn:Hg1. clear Hg1.
  destruct Hkey as [-> | ->].
  - let t := eval vm_compute in (list_ascii_of_string ("{" +:+ JSON.quote "count" +:+ ":")) in
    change (list_ascii_of_string ("{" +:+ JSON.quote "count" +:+ ":")) with t.
    cbn [JsonText.value JsonText.members app].
    cbv -[JsonText.value JsonText.members JsonText.elements app JsNumber.of_Z js_of].
    rewrite Hv. reflexivity.
  - let t := eval vm_compute in (list_ascii_of_string ("{" +:+ JSON.quote "number" +:+ ":")) in
    change (list_ascii_of_string ("{" +:+ JSON.quote "number" +:+ ":")) with t.
    cbn [JsonText.value JsonText.members app].
    cbv -[JsonText.value JsonText.members JsonText.elements app JsNumber.of_Z js_of].
    rewrite Hv. reflexivity.
Qed.

Lemma parse_connected :
  JsonText.parse (JSON.stringify (payload connected)) = Some (js_of (payload connected)).
Proof. by vm_compute. Qed.

(** *** Frames on the wire *)

Lemma wire_frame e chunks : wire (frame e ++ chunks) = block e +:+ wire chunks.
Proof.
  unfold frame, block, event_line, data_line. cbn [app wire fold_right].
  by rewrite !append_assoc.
Qed.

Lemma wire_flat_map es : wire (flat_map frame es) = wire (map block es).
Proof.
  induction es as [|e es IH]; [done|].
  cbn [flat_map map]. rewrite wire_frame, IH. reflexivity.
Qed.

Lemma one_line_app a b : one_line (a +:+ b) = one_line a && one_line b.
Proof.
  induction a as [|c a IH]; cbn [String.append one_line]; [done|].
  rewrite IH. by rewrite !andb_assoc.
Qed.

Lemma one_line_uint d : one_line (NilEmpty.string_of_uint d) = true.
Proof. induction d; cbn [NilEmpty.string_of_uint one_line]; by rewrite ?IHd. Qed.

Lemma one_line_toString z : one_line (JsNumber.toString z) = true.
Proof.
  unfold JsNumber.toString.
  destruct (Z.to_int z) as [d|d]; cbn [NilZero.string_of_int one_line];
    (destruct d; [done|apply one_line_uint..]).
Qed.

(** Quoting leaves no line terminator in a string, whatever it holds. *)
Lemma one_line_quote_char c : one_line (JSON.quote_char c) = true.
Proof. destruct c as [[] [] [] [] [] [] [] []]; by vm_compute. Qed.

Lemma one_line_quote s : one_line (JSON.quote s) = true.
Proof.
  unfold JSON.quote. rewrite !one_line_app.
  assert (one_line (JSON.quote_body s) = true) as ->; [|done].
  induction s as [|c s IH]; cbn [JSON.quote_body]; [done|].
  by rewrite one_line_app, one_line_quote_char, IH.
Qed.

Lemma one_line_member key v :
  one_line (JSON.stringify v) = true ->
  one_line (JSON.stringify (JObject [(key, v)])) = true.
Proof.
  intros Hv. cbn [JSON.stringify map String.concat fst snd].
  by rewrite !one_line_app, one_line_quote, Hv.
Qed.

(** Each event that can be written is one JSON object on one line, and
    the reader takes it for the object it was serialized from. *)
Lemma written_payload e :
  written e ->
  (exists key v, payload e = JObject [(key, v)]) /\
  one_line (name e) = true /\
  one_line (JSON.stringify (payload e)) = true /\
  JsonText.parse (JSON.stringify (payload e)) = Some (js_of (payload e)).
Proof.
  destruct e as [|n|v]; cbn [written payload name].
  - intros _. split_and!; [eauto|done|by vm_compute|apply parse_connected].
  - intros Hn. split_and!; [eauto|done| |apply parse_member; auto].
    apply one_line_member, one_line_toString.
  - intros (n & -> & Hn). split_and!; [eauto|done| |apply parse_member; [auto|lia]].
    apply one_line_member, one_line_toString.
Qed.

Lemma emitted_written h : forall n,
  0 <= n ->
  Forall (fun rnd => JsNumber.is_random rnd = true) (draws h) ->
  Forall written (emitted n h).
Proof.
  induction h as [|[| |rnd|] h IH]; intros n Hn Hd; cbn [emitted]; auto.
  - assert (0 <= JsNumber.incr n) by (unfold JsNumber.incr; case_match; lia).
    constructor; [done|]. by apply IH.
  - change (draws (cRandom ?v :: ?l)) with (v :: draws l) in Hd.
    inversion Hd; subst. constructor; [|by apply IH].
    by apply ServerFacts.sample_range.
Qed.

(** C7: the body of every connection is a sequence of blocks, one per
    event: the line [event: <name>], the line [data: <json>] and an empty
    line. Each [<json>] is the serialization of an object with one
    property; it holds no line terminator, and read as JSON it is that
    object. *)
Theorem C7_event_framing evs s rq k :
  run init evs = Some s -> conns s !! rq = Some k ->
  exists es,
    body (res k) = flat_map frame es /\
    wire (body (res k)) = wire (map block es) /\
    Forall (fun e =>
              (exists key v, payload e = JObject [(key, v)]) /\
              one_line (name e) = true /\
              one_line (JSON.stringify (payload e)) = true /\
              JsonText.parse (JSON.stringify (payload e)) = Some (js_of (payload e)))
           es.
Proof.
  intros Hrun Hk.
  destruct (ServerFacts.stream_of _ _ _ _ Hrun Hk) as (h & Hh & Hb & _).
  exists (connected :: emitted 0 h). split; [done|].
  split; [by rewrite Hb, wire_flat_map|].
  pose proof (ServerFacts.history_draws rq _ _ _ Hrun) as Hd. rewrite Hh in Hd.
  eapply Forall_impl; [|intros e; apply written_payload].
  constructor; [done|]. by apply emitted_written.
Qed.

Lemma C7_event_framing_witness :
  exists s k es,
    run init demo = Some s /\ conns s !! 0%nat = Some k /\
    body (res k) = flat_map frame es /\
    wire (body (res k)) = wire (map block es) /\
    Forall (fun e =>
              (exists key v, payload e = JObject [(key, v)]) /\
              one_line (name e) = true /\
              one_line (JSON.stringify (payload e)) = true /\
              JsonText.parse (JSON.stringify (payload e)) = Some (js_of (payload e)))
           es.
Proof.
  assert (Hrun : exists s k, run init demo = Some s /\ conns s !! 0%nat = Some k).
  { eexists _, _. split; vm_compute; reflexivity. }
  destruct Hrun as (s & k & Hrun & Hk).
  destruct (C7_event_framing demo s 0%nat k Hrun Hk) as (es & H).
  exists s, k, es. auto.
Defined.
End WireFacts.

(** * Properties of the page *)

Module ClientFacts.
Import Client.

Section Page.
Variable JSON_parse : string -> option JsValue.

(** What a listener of a payload event does, case by case. *)
Lemma on_counter_cases event_data :
  on_counter JSON_parse event_data =
    match JSON_parse event_data with
    | None => ([], inl SyntaxError)
    | Some (vUndefined | vNull) => ([], inl TypeError)
    | Some (vObject members) =>
        match own members "count" with
        | Some vUndefined | None => ([], inr tt)
        | Some c => ([setCounter c], inr tt)
        end
    | Some _ => ([], inr tt)
    end.
Proof.
  unfold on_counter, parse. destruct (JSON_parse event_data) as [[| | | | | |ms]|]; try done.
  cbn. destruct (own ms "count") as [[]|]; done.
Qed.

Lemma on_random_cases event_data :
  on_random JSON_parse event_data =
    match JSON_parse event_data with
    | None => ([], inl SyntaxError)
    | Some (vUndefined | vNull) => ([], inl TypeError)
    | Some (vObject members) =>
        match own members "number" with
        | Some vUndefined | None => ([], inr tt)
        | Some c => ([setRandomNumber c], inr tt)
        end
    | Some _ => ([], inr tt)
    end.
Proof.
  unfold on_random, parse. destruct (JSON_parse event_data) as [[| | | | | |ms]|]; try done.
  cbn. destruct (own ms "number") as [[]|]; done.
Qed.

Lemma on_connected_cases event_data :
  on_connected JSON_parse event_data =
    match JSON_parse event_data with
    | None => ([], inl SyntaxError)
    | Some (vUndefined | vNull) => ([], inl TypeError)
    | Some (vObject members) =>
        match own members "message" with
        | Some m => ([console_log m], inr tt)
        | None => ([console_log vUndefined], inr tt)
        end
    | Some _ => ([console_log vUndefined], inr tt)
    end.
Proof.
  unfold on_connected, parse. destruct (JSON_parse event_data) as [[| | | | | |ms]|]; try done.
  cbn. destruct (own ms "message") as [m|]; done.
Qed.

(** C8: whenever the error handler runs, the status becomes
    [Error - Retrying] and the message [Connection error. Retrying...] is
    recorded; it logs to the console, does not throw, and leaves the
    [EventSource] as it was: it never calls [close]. *)
Theorem C8_error_handler w :
  effects onerror =
    [setError (Some "Connection error. Retrying..."%string);
     setConnectionStatus "Error - Retrying";
     console_error "EventSource error:"] /\
  throws onerror = None /\
  ~ In eventSource_close (effects onerror) /\
  connectionStatus (view (exec onerror w)) = "Error - Retrying"%string /\
  error (view (exec onerror w)) = Some "Connection error. Retrying..."%string /\
  source_closed (exec onerror w) = source_closed w /\
  url (exec onerror w) = url w /\
  deliver JSON_parse w Error = (if source_closed w then w else exec onerror w).
Proof.
  split_and!; try done.
  cbn. intros [|[|[|[]]]]; discriminate.
Qed.

(** C9: the function run on unmount performs one effect, the call of
    [eventSource.close()]; it runs whatever the state of the page is, and
    it leaves the view and the console alone. Once it has run, the source
    delivers nothing more. *)
Theorem C9_cleanup_closes w :
  effects cleanup = [eventSource_close] /\
  throws cleanup = None /\
  deliver JSON_parse w Unmount = exec cleanup w /\
  source_closed (exec cleanup w) = true /\
  view (exec cleanup w) = view w /\
  console (exec cleanup w) = console w /\
  uncaught (exec cleanup w) = uncaught w /\
  (forall i, deliver JSON_parse (exec cleanup w) i = exec cleanup w).
Proof.
  split_and!; try done.
  intros i. destruct i; done.
Qed.

Lemma exec_ret w : exec (ret tt) w = w.
Proof. by destruct w. Qed.

Lemma exec_throw x w :
  exec (throw x) w = mkWorld (view w) (url w) (source_closed w) (console w) (uncaught w ++ [x]).
Proof. done. Qed.

(** C10: a [counter] event can only change [counter], and does so
    exactly when the payload is an object whose [count] is defined; a
    [random] event can only change [randomNumber], and does so exactly
    when [number] is defined; a [connected] event changes no view state.
    None of the three touches the status, the error message or the
    [EventSource]. *)
Theorem C10_handlers_frame event_data w :
  (let w' := exec (on_counter JSON_parse event_data) w in
   connectionStatus (view w') = connectionStatus (view w) /\
   randomNumber (view w') = randomNumber (view w) /\
   error (view w') = error (view w) /\
   source_closed w' = source_closed w /\
   counter (view w') =
     match JSON_parse event_data with
     | Some (vObject members) =>
         match own members "count" with
         | Some vUndefined | None => counter (view w)
         | Some count => count
         end
     | _ => counter (view w)
     end) /\
  (let w' := exec (on_random JSON_parse event_data) w in
   connectionStatus (view w') = connectionStatus (view w) /\
   counter (view w') = counter (view w) /\
   error (view w') = error (view w) /\
   source_closed w' = source_closed w /\
   randomNumber (view w') =
     match JSON_parse event_data with
     | Some (vObject members) =>
         match own members "number" with
         | Some vUndefined | None => randomNumber (view w)
         | Some number => number
         end
     | _ => randomNumber (view w)
     end) /\
  (let w' := exec (on_connected JSON_parse event_data) w in
   view w' = view w /\ source_closed w' = source_closed w).
Proof.
  rewrite on_counter_cases, on_random_cases, on_connected_cases.
  destruct (JSON_parse event_data) as [[| | | | | |ms]|]; cbn zeta;
    try (split_and!; done).
  split_and!; try done;
    try (destruct (own ms "count") as [[]|]; done);
    try (destruct (own ms "number") as [[]|]; done);
    try (destruct (own ms "message") as [m|]; done).
Qed.

(** Reported exceptions do not influence what the page does next. *)
Lemma same_page_apply e w1 w2 :
  same_page w1 w2 -> same_page (apply e w1) (apply e w2).
Proof.
  intros (Hv & Hu & Hc & Hl).
  destruct e; unfold same_page; cbn; rewrite ?Hv, ?Hu, ?Hc, ?Hl; done.
Qed.

Lemma same_page_exec m w1 w2 :
  same_page w1 w2 -> same_page (exec m w1) (exec m w2).
Proof.
  intros Hs. unfold exec.
  assert (Hf : same_page (fold_left (fun w e => apply e w) (effects m) w1)
                         (fold_left (fun w e => apply e w) (effects m) w2)).
  { revert w1 w2 Hs. induction (effects m) as [|e es IH]; intros w1 w2 Hs; [done|].
    cbn [fold_left]. by apply IH, same_page_apply. }
  destruct (throws m); [|done].
  destruct Hf as (? & ? & ? & ?). by unfold same_page.
Qed.

Lemma same_page_deliver i w1 w2 :
  same_page w1 w2 -> same_page (deliver JSON_parse w1 i) (deliver JSON_parse w2 i).
Proof.
  intros Hs. pose proof Hs as (_ & _ & Hc & _).
  destruct i; cbn [deliver]; try rewrite Hc; try destruct (source_closed w2);
    try done; by apply same_page_exec.
Qed.

Lemma same_page_deliver_all l : forall w1 w2,
  same_page w1 w2 ->
  same_page (deliver_all JSON_parse w1 l) (deliver_all JSON_parse w2 l).
Proof.
  induction l as [|i l IH]; intros w1 w2 Hs; [done|].
  cbn [deliver_all fold_left]. by apply IH, same_page_deliver.
Qed.

(** C4, as the code has it: the listeners of [counter] and [random] do
    not catch what [JSON.parse] throws. On a data line that is not JSON
    the listener throws [SyntaxError] before any setter is called; the
    browser reports the exception, the view, the console and the
    [EventSource] stay as they were, and every later event is handled as
    if the malformed one had not arrived. *)
Theorem C4_malformed_frame type event_data w rest :
  type = "counter"%string \/ type = "random"%string ->
  JSON_parse event_data = None ->
  throws (listener JSON_parse (Message type event_data)) = Some SyntaxError /\
  effects (listener JSON_parse (Message type event_data)) = [] /\
  (source_closed w = false ->
     uncaught (deliver JSON_parse w (Message type event_data)) = uncaught w ++ [SyntaxError]) /\
  same_page (deliver JSON_parse w (Message type event_data)) w /\
  same_page (deliver_all JSON_parse w (Message type event_data :: rest))
            (deliver_all JSON_parse w rest).
Proof.
  intros Hty Hbad.
  assert (Hl : listener JSON_parse (Message type event_data) = throw SyntaxError).
  { destruct Hty as [-> | ->]; cbn [listener String.eqb Ascii.eqb Bool.eqb].
    - by rewrite on_counter_cases, Hbad.
    - by rewrite on_random_cases, Hbad. }
  assert (Hsame : same_page (deliver JSON_parse w (Message type event_data)) w).
  { cbn [deliver]. rewrite Hl. destruct (source_closed w); by unfold same_page. }
  split_and!; try by rewrite Hl.
  - intros Hopen. cbn [deliver]. by rewrite Hopen, Hl.
  - done.
  - cbn [deliver_all fold_left]. by apply same_page_deliver_all.
Qed.

End Page.

(** C4, as the spec states it, fails: on the data line [not json] the
    listener of [counter] throws, and the exception leaves it. *)
Lemma C4_malformed_frame_counterexample :
  JsonText.parse "not json" = None /\
  throws (on_counter JsonText.parse "not json") = Some SyntaxError /\
  uncaught (deliver JsonText.parse mounted (Message "counter" "not json")) = [SyntaxError].
Proof. by vm_compute. Qed.

Lemma C4_malformed_frame_witness :
  JsonText.parse "not json" = None /\
  throws (listener JsonText.parse (Message "counter" "not json")) = Some SyntaxError /\
  effects (listener JsonText.parse (Message "counter" "not json")) = [] /\
  (source_closed mounted = false ->
     uncaught (deliver JsonText.parse mounted (Message "counter" "not json")) =
       uncaught mounted ++ [SyntaxError]) /\
  same_page (deliver JsonText.parse mounted (Message "counter" "not json")) mounted /\
  same_page (deliver_all JsonText.parse mounted
               [Message "counter" "not json"; Open;
                Message "counter" (JSON.stringify (JObject [("count", JInteger 7)]))])
            (deliver_all JsonText.parse mounted
               [Open; Message "counter" (JSON.stringify (JObject [("count", JInteger 7)]))]).
Proof.
  split; [by vm_compute|].
  apply (C4_malformed_frame JsonText.parse "counter" "not json" mounted
           [Open; Message "counter" (JSON.stringify (JObject [("count", JInteger 7)]))]).
  - by left.
  - by vm_compute.
Defined.

(** *** The page on the frames of the server *)

(** What the server writes for a count arrives in [counter] as the Number
    of that count; likewise a random number in [randomNumber]. *)
Lemma counter_frame_received n w :
  0 <= n ->
  counter (view (exec (on_counter JsonText.parse
                         (JSON.stringify (Server.payload (Server.counterEv n)))) w)) =
    vNumber (JsNumber.of_Z n).
Proof.
  intros Hn. rewrite on_counter_cases.
  cbn [Server.payload]. rewrite WireFacts.parse_member by auto.
  reflexivity.
Qed.

Lemma random_frame_received n w :
  0 <= n ->
  randomNumber (view (exec (on_random JsonText.parse
                              (JSON.stringify (Server.payload (Server.randomEv (JInteger n))))) w)) =
    vNumber (JsNumber.of_Z n).
Proof.
  intros Hn. rewrite on_random_cases.
  cbn [Server.payload]. rewrite WireFacts.parse_member by auto.
  reflexivity.
Qed.

(** A session: open, two counts, a data line that is not JSON, a payload
    that is [null], a transport error, a random number, unmount, and a
    count that arrives too late. *)
Example session :
  deliver_all JsonText.parse mounted
    [Open;
     Message "counter" (JSON.stringify (JObject [("count", JInteger 1)]));
     Message "counter" (JSON.stringify (JObject [("count", JInteger 2)]));
     Message "counter" "not json";
     Message "random" "null";
     Error;
     Message "random" (JSON.stringify (JObject [("number", JInteger 42)]));
     Unmount;
     Message "counter" (JSON.stringify (JObject [("count", JInteger 3)]))] =
  mkWorld (mkView "Error - Retrying" (vNumber (JsNumber.of_Z 2)) (vNumber (JsNumber.of_Z 42))
                  (Some "Connection error. Retrying..."%string))
          "/api/events" true [console_error "EventSource error:"]
          [SyntaxError; TypeError].
Proof. by vm_compute. Qed.

End ClientFacts.


(** * More on the stream endpoint *)

(** ** What is written to a response *)

Module StreamFacts.
Import Server ServerFacts.

#[local] Arguments event_line : simpl never.
#[local] Arguments data_line : simpl never.
#[local] Arguments JsNumber.incr : simpl never.
#[local] Arguments sample : simpl never.

(** X2: On every connection, at every point of every run, the three
    headers the handler sets have the values it gave them:
    [Content-Type] is [text/event-stream], [Cache-Control] is
    [no-cache] and [Connection] is [keep-alive]; no timer callback and
    no close listener sets one of them again. *)
Theorem headers_fixed evs s rq k :
  run init evs = Some s -> conns s !! rq = Some k ->
  headers (res k) !! "Content-Type"%string = Some "text/event-stream"%string /\
  headers (res k) !! "Cache-Control"%string = Some "no-cache"%string /\
  headers (res k) !! "Connection"%string = Some "keep-alive"%string.
Proof.
  intros Hrun Hk. destruct (stream_of _ _ _ _ Hrun Hk) as (h & _ & _ & _ & ->).
  cbn [handler_connection res headers]. split_and!; by vm_compute.
Qed.

Lemma headers_fixed_witness :
  exists s k, run init demo = Some s /\ conns s !! 1%nat = Some k /\
    headers (res k) !! "Content-Type"%string = Some "text/event-stream"%string /\
    headers (res k) !! "Cache-Control"%string = Some "no-cache"%string /\
    headers (res k) !! "Connection"%string = Some "keep-alive"%string.
Proof.
  eexists _, _. split; [vm_compute; reflexivity|]. split; [vm_compute; reflexivity|].
  eapply (headers_fixed demo _ 1%nat); vm_compute; reflexivity.
Defined.

Lemma incr_ge n : n <= JsNumber.incr n.
Proof. unfold JsNumber.incr. case_match; lia. Qed.

Lemma counter_after_ge h : forall n, n <= counter_after n h.
Proof.
  induction h as [|[| |rnd|] h IH]; intros n; cbn [counter_after]; auto; try lia.
  pose proof (incr_ge n). pose proof (IH (JsNumber.incr n)). lia.
Qed.

(** X3: A response only grows: along any run, what has been written to a
    connection stays at the front of its body, its headers and its timer
    handles stay, its counter does not decrease, and the connection is
    never dropped. Once it has closed, it does not change at all. *)
Theorem body_append_only evs s s' rq k :
  run s evs = Some s' -> conns s !! rq = Some k ->
  exists k', conns s' !! rq = Some k' /\
    body (res k) `prefix_of` body (res k') /\
    headers (res k') = headers (res k) /\
    counterInterval k' = counterInterval k /\
    randomInterval k' = randomInterval k /\
    counter k <= counter k'.
Proof.
  intros Hrun Hk.
  destruct (run_live rq _ _ _ _ Hrun Hk) as (k' & Hk' & Hb & Hc & Hh & Hci & Hri).
  exists k'. split_and!; try done.
  - rewrite Hb. by eexists.
  - rewrite Hc. apply counter_after_ge.
Qed.

Lemma body_append_only_witness :
  exists s' k',
    run (handler 0 init) [Timeout 0 one_half; Timeout 1 below_one] = Some s' /\
    conns s' !! 0%nat = Some k' /\
    body (res (handler_connection init)) `prefix_of` body (res k') /\
    headers (res k') = headers (res (handler_connection init)) /\
    counterInterval k' = counterInterval (handler_connection init) /\
    randomInterval k' = randomInterval (handler_connection init) /\
    counter (handler_connection init) <= counter k'.
Proof.
  destruct (body_append_only [Timeout 0%nat one_half; Timeout 1%nat below_one]
              (handler 0 init) (update 0 (randomCallback below_one
                 (counterCallback (handler_connection init)))
                 (update 0 (counterCallback (handler_connection init)) (handler 0 init)))
              0%nat (handler_connection init))
    as (k' & Hk' & H); [by vm_compute | by vm_compute |].
  eexists _, k'. split; [vm_compute; reflexivity|]. split; [exact Hk'|exact H].
Defined.

Lemma counter_after_count h : forall n,
  0 <= n <= JsNumber.MAX_EXACT ->
  counter_after n h =
    Z.min (n + Z.of_nat (length (counts (emitted n h)))) JsNumber.MAX_EXACT.
Proof.
  induction h as [|[| |rnd|] h IH]; intros n Hn; cbn [counter_after emitted].
  - cbn. lia.
  - by apply IH.
  - change (counts (counterEv ?c :: ?l)) with (c :: counts l). cbn [length].
    rewrite IH by by apply incr_range.
    rewrite Nat2Z.inj_succ.
    pose proof (incr_min n (Z.of_nat (length (counts (emitted (JsNumber.incr n) h)))) Hn) as H.
    unfold JsNumber.incr in *. case_match; lia.
  - change (counts (randomEv ?c :: ?l)) with (counts l). by apply IH.
  - by apply IH.
Qed.

(** X4: The variable [counter] of a connection is the number of [counter]
    frames written to it so far, up to [2^53]. *)
Theorem counter_counts_frames evs s rq k :
  run init evs = Some s -> conns s !! rq = Some k ->
  counter k =
    Z.min (Z.of_nat (length (payloads "counter" (body (res k))))) JsNumber.MAX_EXACT.
Proof.
  intros Hrun Hk. destruct (stream_of _ _ _ _ Hrun Hk) as (h & _ & Hb & Hc & _).
  rewrite Hb, payloads_counter, length_map, Hc.
  change (counts (connected :: ?l)) with (counts l).
  rewrite counter_after_count by (unfold JsNumber.MAX_EXACT; lia). f_equal.
Qed.

Lemma counter_counts_frames_witness :
  exists s k, run init demo = Some s /\ conns s !! 0%nat = Some k /\
    counter k =
      Z.min (Z.of_nat (length (payloads "counter" (body (res k))))) JsNumber.MAX_EXACT.
Proof.
  eexists _, _. split; [vm_compute; reflexivity|]. split; [vm_compute; reflexivity|].
  eapply (counter_counts_frames demo _ 0%nat); vm_compute; reflexivity.
Defined.

End StreamFacts.

(** ** The timers of the process *)

Module ResourcesFacts.
Import Server Resources ServerFacts.

#[local] Arguments event_line : simpl never.
#[local] Arguments data_line : simpl never.
#[local] Arguments JsNumber.incr : simpl never.
#[local] Arguments sample : simpl never.

Lemma step_timers_of_open s ev s' :
  timers_of_open s -> step s ev = Some s' -> timers_of_open s'.
Proof.
  intros Hs Hstep t tm Ht.
  destruct ev as [r | t0 rnd | r]; cbn [step] in Hstep.
  - destruct (conns s !! r) eqn:E; [done|]. simplify_eq.
    rewrite handler_timers in Ht.
    repeat case_decide; simplify_eq.
    + exists r, (handler_connection s). rewrite handler_lookup. auto.
    + exists r, (handler_connection s). rewrite handler_lookup. auto.
    + destruct (Hs _ _ Ht) as (rq & k & Hk & Hc & Hown).
      exists rq, k. rewrite handler_lookup_ne by congruence. auto.
  - destruct (timers s !! t0) as [tm0|] eqn:Ht0; cbn in Hstep; [|done].
    destruct (callback tm0) as [r|r];
      [|destruct (JsNumber.is_random rnd); [|done]];
      destruct (conns s !! r) as [k0|] eqn:E;
      cbn in Hstep; simplify_eq; cbn in Ht |- *;
      destruct (Hs _ _ Ht) as (rq & k & Hk & Hc & Hown);
      (destruct (decide (r = rq)) as [->|Hne];
       [simplify_eq; eexists rq, _; rewrite lookup_insert_eq; split; [done|]; auto
       |exists rq, k; rewrite lookup_insert_ne by done; auto]).
  - destruct (conns s !! r) as [k0|] eqn:E; cbn in Hstep; [|done].
    destruct (closed k0); [done|]. simplify_eq. cbn in Ht |- *.
    apply lookup_delete_Some in Ht as [Hnr Ht].
    apply lookup_delete_Some in Ht as [Hnc Ht].
    destruct (Hs _ _ Ht) as (rq & k & Hk & Hc & Hown).
    destruct (decide (r = rq)) as [->|Hne].
    + simplify_eq. destruct Hown as [[_ ?]|[_ ?]]; congruence.
    + exists rq, k. rewrite lookup_insert_ne by done. auto.
Qed.

Lemma run_timers_of_open evs : forall s s',
  timers_of_open s -> run s evs = Some s' -> timers_of_open s'.
Proof.
  induction evs as [|ev evs IH]; intros s s' Hs Hrun; cbn [run] in Hrun.
  { by simplify_eq. }
  destruct (step s ev) as [s1|] eqn:Hstep; cbn in Hrun; [|done].
  eauto using step_timers_of_open.
Qed.

Lemma init_timers_of_open : timers_of_open init.
Proof. intros t tm Ht. cbn [init timers] in Ht. by rewrite lookup_empty in Ht. Qed.

(** X5: The active timers are exactly the handles held by the requests that
    have not closed, each with the delay of its interval; when every
    request has closed, no timer is left. *)
Theorem timers_are_held evs s :
  run init evs = Some s ->
  (forall t, is_Some (timers s !! t) <-> held s t) /\
  (forall t tm, timers s !! t = Some tm ->
     (exists rq, callback tm = counterTick rq /\ delay tm = 1000) \/
     (exists rq, callback tm = randomTick rq /\ delay tm = 2000)) /\
  ((forall rq k, conns s !! rq = Some k -> closed k = true) -> timers s = ∅).
Proof.
  intros Hrun.
  pose proof (run_timers_of_open _ _ _ init_timers_of_open Hrun) as Ho.
  pose proof (run_timers_live _ _ _ init_timers_live Hrun) as Hl.
  split_and!.
  - intros t. split.
    + intros [tm Ht]. destruct (Ho _ _ Ht) as (rq & k & Hk & Hc & Hown).
      exists rq, k. split_and!; try done. destruct Hown as [[_ <-]|[_ <-]]; auto.
    + intros (rq & k & Hk & Hc & Ht).
      destruct (Hl _ _ Hk) as (_ & _ & Hlive). destruct (Hlive Hc) as [H1 H2].
      destruct Ht as [-> | ->]; eauto.
  - intros t tm Ht. destruct (Ho _ _ Ht) as (rq & k & _ & _ & [[-> _]|[-> _]]); eauto.
  - intros Hall. apply map_empty. intros t.
    destruct (timers s !! t) as [tm|] eqn:Ht; [|done].
    destruct (Ho _ _ Ht) as (rq & k & Hk & Hc & _).
    rewrite (Hall _ _ Hk) in Hc. done.
Qed.

Lemma timers_are_held_witness :
  exists s, run init demo = Some s /\
    (forall t, is_Some (timers s !! t) <-> held s t) /\
    (forall t tm, timers s !! t = Some tm ->
       (exists rq, callback tm = counterTick rq /\ delay tm = 1000) \/
       (exists rq, callback tm = randomTick rq /\ delay tm = 2000)) /\
    ((forall rq k, conns s !! rq = Some k -> closed k = true) -> timers s = ∅).
Proof.
  eexists. split; [vm_compute; reflexivity|].
  apply (timers_are_held demo). vm_compute; reflexivity.
Defined.


Lemma open_connections_insert_fresh rq k s :
  conns s !! rq = None -> closed k = false ->
  size (filter (fun kv : nat * Connection => closed kv.2 = false) (<[rq := k]> (conns s))) =
    S (open_connections s).
Proof.
  intros Hn Hc. rewrite map_filter_insert_True by done.
  apply map_size_insert_None. apply map_lookup_filter_None. auto.
Qed.

Lemma open_connections_update rq k k' s :
  conns s !! rq = Some k -> closed k' = closed k ->
  size (filter (fun kv : nat * Connection => closed kv.2 = false) (<[rq := k']> (conns s))) =
    open_connections s.
Proof.
  intros Hk Hc. unfold open_connections. destruct (closed k) eqn:Hck.
  - rewrite map_filter_insert_False by (cbn; congruence).
    rewrite map_filter_delete. rewrite delete_id; [done|].
    apply map_lookup_filter_None. right. intros x Hx. simplify_eq. cbn. congruence.
  - rewrite map_filter_insert_True by done.
    apply map_size_insert_Some. exists k. by apply map_lookup_filter_Some.
Qed.

Lemma open_connections_close rq k k' s :
  conns s !! rq = Some k -> closed k = false -> closed k' = true ->
  S (size (filter (fun kv : nat * Connection => closed kv.2 = false) (<[rq := k']> (conns s)))) =
    open_connections s.
Proof.
  intros Hk Hc Hc'. unfold open_connections.
  rewrite map_filter_insert_False by (cbn; congruence).
  rewrite map_filter_delete, map_size_delete_Some.
  - assert (filter (fun kv : nat * Connection => closed kv.2 = false) (conns s) !! rq = Some k)
      as Hin by (by apply map_lookup_filter_Some).
    destruct (size _) eqn:Hsz; [|done].
    apply map_size_empty_iff in Hsz. rewrite Hsz in Hin. by rewrite lookup_empty in Hin.
  - exists k. by apply map_lookup_filter_Some.
Qed.

Lemma step_timer_count s ev s' :
  timers_of_open s -> timers_live s -> step s ev = Some s' ->
  size (timers s) = (2 * open_connections s)%nat ->
  size (timers s') = (2 * open_connections s')%nat.
Proof.
  intros Ho Hl Hstep Hsz.
  destruct ev as [r | t0 rnd | r]; cbn [step] in Hstep.
  - destruct (conns s !! r) eqn:E; [done|]. simplify_eq.
    unfold handler, open_connections; cbn.
    rewrite open_connections_insert_fresh by done.
    assert (Hfresh : forall t, (nextTimer s <= t)%nat -> timers s !! t = None).
    { intros t Ht. destruct (timers s !! t) as [tm|] eqn:Etm; [|done].
      destruct (Ho _ _ Etm) as (rq & k & Hk & _ & Hown).
      destruct (Hl _ _ Hk) as (? & ? & _). destruct Hown as [[_ ?]|[_ ?]]; lia. }
    rewrite map_size_insert_None.
    + rewrite map_size_insert_None by (apply Hfresh; lia). lia.
    + rewrite lookup_insert_ne by lia. apply Hfresh. lia.
  - destruct (timers s !! t0) as [tm0|] eqn:Ht0; cbn in Hstep; [|done].
    destruct (callback tm0) as [r|r];
      [|destruct (JsNumber.is_random rnd); [|done]];
      destruct (conns s !! r) as [k0|] eqn:E;
      cbn in Hstep; simplify_eq; unfold open_connections; cbn;
      by rewrite (open_connections_update r k0).
  - destruct (conns s !! r) as [k0|] eqn:E; cbn in Hstep; [|done].
    destruct (closed k0) eqn:Hc0; [done|]. simplify_eq.
    destruct (Hl _ _ E) as (_ & _ & Hlive). destruct (Hlive Hc0) as [Hc Hr].
    unfold open_connections; cbn.
    pose proof (open_connections_close r k0
                  (mkConnection (res k0) (counter k0) (counterInterval k0) (randomInterval k0) true)
                  s E Hc0 eq_refl) as Hcl.
    assert (Hne : randomInterval k0 <> counterInterval k0).
    { intros Heq. rewrite Heq in Hr. congruence. }
    rewrite map_size_delete_Some by (rewrite lookup_delete_ne by done; eauto).
    rewrite map_size_delete_Some by eauto.
    lia.
Qed.

(** X6: Two active timers for every request that has not closed, and no
    other: the number of active timers is twice the number of open
    connections. *)
Theorem timer_count evs s :
  run init evs = Some s -> size (timers s) = (2 * open_connections s)%nat.
Proof.
  assert (Hgen : forall evs s0 s,
            timers_of_open s0 -> timers_live s0 ->
            size (timers s0) = (2 * open_connections s0)%nat ->
            run s0 evs = Some s -> size (timers s) = (2 * open_connections s)%nat).
  { clear. induction evs as [|ev evs' IH]; intros s0 s Ho Hl Hsz Hrun; cbn [run] in Hrun.
    { by simplify_eq. }
    destruct (step s0 ev) as [s1|] eqn:Hstep; cbn in Hrun; [|done].
    apply (IH s1 s); eauto using step_timers_of_open, step_timers_live, step_timer_count. }
  intros Hrun. apply (Hgen evs init s); auto using init_timers_of_open, init_timers_live.
Qed.

Lemma timer_count_witness :
  exists s, run init demo = Some s /\ size (timers s) = (2 * open_connections s)%nat.
Proof.
  eexists. split; [vm_compute; reflexivity|].
  apply (timer_count demo). vm_compute; reflexivity.
Defined.

End ResourcesFacts.

(** * More on the page *)

Module PageFacts.
Import Client PageView.

Section Page.
Variable JSON_parse : string -> option JsValue.

Lemma deliver_closed w i :
  source_closed w = true -> deliver JSON_parse w i = w.
Proof. intros Hc. destruct i; cbn [deliver]; rewrite ?Hc; try done. by destruct w; cbn in *; subst. Qed.

Lemma deliver_all_closed l : forall w,
  source_closed w = true -> deliver_all JSON_parse w l = w.
Proof.
  induction l as [|i l IH]; intros w Hc; [done|].
  cbn [deliver_all fold_left]. rewrite deliver_closed by done. by apply IH.
Qed.

(** *** The page with its render *)

Lemma page_step_closed w i :
  source_closed w = true -> page_step JSON_parse w i = w.
Proof.
  intros Hc. unfold page_step. rewrite deliver_closed by done.
  destruct (renders (view w)); [done|]. destruct w; cbn in *; by subst.
Qed.

Lemma page_run_closed l : forall w,
  source_closed w = true -> page_run JSON_parse w l = w.
Proof.
  induction l as [|i l IH]; intros w Hc; [done|].
  cbn [page_run fold_left]. rewrite page_step_closed by done. by apply IH.
Qed.

Lemma page_run_snoc w l i :
  page_run JSON_parse w (l ++ [i]) = page_step JSON_parse (page_run JSON_parse w l) i.
Proof. unfold page_run. by rewrite fold_left_app. Qed.

Lemma last_transport_snoc l i :
  last_transport (l ++ [i]) =
    match transport_of i with Some t => Some t | None => last_transport l end.
Proof. unfold last_transport. by rewrite fold_left_app. Qed.

(** A render, thrown or not, leaves the state and the URL as the
    listeners left them. *)
Lemma page_step_view w i :
  view (page_step JSON_parse w i) = view (deliver JSON_parse w i) /\
  url (page_step JSON_parse w i) = url (deliver JSON_parse w i).
Proof. unfold page_step. by destruct (renders (view (deliver JSON_parse w i))). Qed.

(** A page that is still there after an event was there before it, has
    run the listener of the event, and has rendered what it set. *)
Lemma page_step_live w i :
  source_closed (page_step JSON_parse w i) = false ->
  source_closed w = false /\ i <> Unmount /\
  page_step JSON_parse w i = exec (listener JSON_parse i) w /\
  renders (view (exec (listener JSON_parse i) w)) = true.
Proof.
  intros Hlive.
  destruct (source_closed w) eqn:Hc.
  { rewrite page_step_closed in Hlive by done. congruence. }
  unfold page_step in *.
  destruct (renders (view (deliver JSON_parse w i))) eqn:Hr; [|done].
  destruct i; cbn [deliver] in *; rewrite ?Hc in *; try done.
Qed.

(** What the listener of an event does to the status and the error:
    [onopen] and [onerror] set both, every other listener leaves both;
    no listener changes the URL. *)
Lemma listener_status w i :
  url (exec (listener JSON_parse i) w) = url w /\
  connectionStatus (view (exec (listener JSON_parse i) w)) =
    match transport_of i with
    | Some Opened => "Connected"%string
    | Some Failed => "Error - Retrying"%string
    | None => connectionStatus (view w)
    end /\
  error (view (exec (listener JSON_parse i) w)) =
    match transport_of i with
    | Some Opened => None
    | Some Failed => Some "Connection error. Retrying..."%string
    | None => error (view w)
    end.
Proof.
  destruct i as [| |type data|]; try done.
  cbn [listener transport_of].
  destruct (String.eqb_spec type "connected") as [->|H1].
  { rewrite ClientFacts.on_connected_cases.
    destruct (JSON_parse data) as [[| | | | | |ms]|]; try done.
    destruct (own ms "message"); done. }
  destruct (String.eqb_spec type "counter") as [->|H2].
  { rewrite ClientFacts.on_counter_cases.
    destruct (JSON_parse data) as [[| | | | | |ms]|]; try done.
    destruct (own ms "count") as [[]|]; done. }
  destruct (String.eqb_spec type "random") as [->|H3].
  { rewrite ClientFacts.on_random_cases.
    destruct (JSON_parse data) as [[| | | | | |ms]|]; try done.
    destruct (own ms "number") as [[]|]; done. }
  destruct (String.eqb_spec type "error") as [->|H4]; [done|].
  destruct (String.eqb_spec type "open") as [->|H5]; [done|].
  by rewrite ClientFacts.exec_ret.
Qed.

Lemma deliver_status w i :
  url (deliver JSON_parse w i) = url w /\
  ((connectionStatus (view (deliver JSON_parse w i)) = connectionStatus (view w) /\
    error (view (deliver JSON_parse w i)) = error (view w)) \/
   (connectionStatus (view (deliver JSON_parse w i)) = "Connected"%string /\
    error (view (deliver JSON_parse w i)) = None) \/
   (connectionStatus (view (deliver JSON_parse w i)) = "Error - Retrying"%string /\
    error (view (deliver JSON_parse w i)) = Some "Connection error. Retrying..."%string)).
Proof.
  destruct (source_closed w) eqn:Hc.
  { rewrite deliver_closed by done. auto. }
  assert (Hd : deliver JSON_parse w i = exec (listener JSON_parse i) w).
  { destruct i; cbn [deliver]; by rewrite ?Hc. }
  rewrite Hd. destruct (listener_status w i) as (Hu & Hs & He).
  split; [done|]. rewrite Hs, He. destruct (transport_of i) as [[]|]; auto.
Qed.

Lemma page_view_cases l :
  let w := page_run JSON_parse mounted l in
  url w = "/api/events"%string /\
  ((connectionStatus (view w) = "Disconnected"%string /\ error (view w) = None) \/
   (connectionStatus (view w) = "Connected"%string /\ error (view w) = None) \/
   (connectionStatus (view w) = "Error - Retrying"%string /\
    error (view w) = Some "Connection error. Retrying..."%string)) /\
  (source_closed w = false ->
     connectionStatus (view w) =
       match last_transport l with
       | Some Opened => "Connected"%string
       | Some Failed => "Error - Retrying"%string
       | None => "Disconnected"%string
       end /\
     error (view w) =
       match last_transport l with
       | Some Failed => Some "Connection error. Retrying..."%string
       | _ => None
       end).
Proof.
  cbn zeta. induction l as [|i l IH] using rev_ind.
  { split_and!; auto. }
  destruct IH as (Hu & Hcases & Hlive).
  rewrite page_run_snoc, last_transport_snoc.
  set (w := page_run JSON_parse mounted l) in *.
  destruct (page_step_view w i) as (Hv1 & Hu1).
  destruct (deliver_status w i) as (Hu2 & Hd).
  split_and!.
  - congruence.
  - rewrite Hv1. destruct Hd as [(-> & ->)|[?|?]]; auto.
  - intros Hl. destruct (page_step_live w i Hl) as (Hw & _ & -> & _).
    destruct (Hlive Hw) as (Hs & He).
    destruct (listener_status w i) as (_ & -> & ->).
    rewrite Hs, He. destruct (transport_of i) as [[]|]; [done|done|].
    split; [done|]. by destruct (last_transport l) as [[]|].
Qed.

(** X7: Whatever arrives at the page, in whatever order and with whatever
    data, the URL of the source stays [/api/events] and the status and
    the error are one of three pairs: [Disconnected] with no error,
    [Connected] with no error, or [Error - Retrying] with the message
    [Connection error. Retrying...]. As long as the page is there (it
    has not been unmounted, by its parent or by a render that threw),
    the pair is the one of the last event that reached [onopen] or
    [onerror], a block of the stream named [open] or [error] included,
    and the first one when there was none. *)
Theorem status_and_error l :
  let w := page_run JSON_parse mounted l in
  url w = "/api/events"%string /\
  ((connectionStatus (view w) = "Disconnected"%string /\ error (view w) = None) \/
   (connectionStatus (view w) = "Connected"%string /\ error (view w) = None) \/
   (connectionStatus (view w) = "Error - Retrying"%string /\
    error (view w) = Some "Connection error. Retrying..."%string)) /\
  (source_closed w = false ->
     connectionStatus (view w) =
       match last_transport l with
       | Some Opened => "Connected"%string
       | Some Failed => "Error - Retrying"%string
       | None => "Disconnected"%string
       end /\
     error (view w) =
       match last_transport l with
       | Some Failed => Some "Connection error. Retrying..."%string
       | _ => None
       end).
Proof. exact (page_view_cases l). Qed.

(** X8: What is rendered. Always: the dot is red exactly when the error
    paragraph is there, and the paragraph then holds the message of the
    error handler. As long as the page is there: the dot is yellow until
    an event reaches [onopen] or [onerror], green when the last such
    event reached [onopen], red when it reached [onerror]. *)
Theorem status_dot l :
  let w := page_run JSON_parse mounted l in
  (indicator (connectionStatus (view w)) = "bg-red-500"%string <->
     error_paragraph (error (view w)) = Some "Connection error. Retrying..."%string) /\
  (indicator (connectionStatus (view w)) <> "bg-red-500"%string <->
     error_paragraph (error (view w)) = None) /\
  (source_closed w = false ->
     indicator (connectionStatus (view w)) =
       match last_transport l with
       | Some Opened => "bg-green-500"%string
       | Some Failed => "bg-red-500"%string
       | None => "bg-yellow-500"%string
       end).
Proof.
  cbn zeta. destruct (page_view_cases l) as (_ & Hcases & Hlive).
  split_and!.
  - destruct Hcases as [(-> & ->)|[(-> & ->)|(-> & ->)]]; vm_compute; split; congruence.
  - destruct Hcases as [(-> & ->)|[(-> & ->)|(-> & ->)]]; vm_compute; split; congruence.
  - intros Hl. destruct (Hlive Hl) as (-> & _).
    by destruct (last_transport l) as [[]|].
Qed.

(** X9: When a listener of a message throws: [SyntaxError] exactly when the
    data is not JSON, [TypeError] exactly when it is [null] (the property
    is read from it); this for the three event types that have a
    listener. A listener that throws has called no setter and logged
    nothing. *)
Theorem listener_throws type data :
  let handled := type = "connected"%string \/ type = "counter"%string \/ type = "random"%string in
  let m := listener JSON_parse (Message type data) in
  (throws m = Some SyntaxError <-> handled /\ JSON_parse data = None) /\
  (throws m = Some TypeError <->
     handled /\ (JSON_parse data = Some vNull \/ JSON_parse data = Some vUndefined)) /\
  (throws m <> None -> effects m = []).
Proof.
  cbn zeta. cbn [listener].
  destruct (String.eqb_spec type "connected") as [->|H1].
  { rewrite ClientFacts.on_connected_cases.
    destruct (JSON_parse data) as [[| | | | | |ms]|]; cbn;
      try (destruct (own ms "message"); cbn); split_and!; try split; try done;
      try (intros (_ & ?); done); try (intros (_ & [?|?]); done); eauto 6. }
  destruct (String.eqb_spec type "counter") as [->|H2].
  { rewrite ClientFacts.on_counter_cases.
    destruct (JSON_parse data) as [[| | | | | |ms]|]; cbn;
      try (destruct (own ms "count") as [[]|]; cbn); split_and!; try split; try done;
      try (intros (_ & ?); done); try (intros (_ & [?|?]); done); eauto 6. }
  destruct (String.eqb_spec type "random") as [->|H3].
  { rewrite ClientFacts.on_random_cases.
    destruct (JSON_parse data) as [[| | | | | |ms]|]; cbn;
      try (destruct (own ms "number") as [[]|]; cbn); split_and!; try split; try done;
      try (intros (_ & ?); done); try (intros (_ & [?|?]); done); eauto 6. }
  destruct (String.eqb type "error"); [|destruct (String.eqb type "open")];
    cbn; split_and!; try split; try done; intros ([?|[?|?]] & _); done.
Qed.

(** An event that is not a [counter] message, handled by a page that is
    still there afterwards, leaves the counter as it is. *)
Lemma listener_other_counter w i :
  is_counter_message i = false -> i <> Unmount ->
  counter (view (exec (listener JSON_parse i) w)) = counter (view w).
Proof.
  destruct i as [| |type data|]; cbn [is_counter_message]; intros Hi Hu; try done.
  cbn [listener]. rewrite Hi.
  destruct (String.eqb type "connected").
  { rewrite ClientFacts.on_connected_cases.
    destruct (JSON_parse data) as [[| | | | | |ms]|]; try done.
    destruct (own ms "message"); done. }
  destruct (String.eqb type "random").
  { rewrite ClientFacts.on_random_cases.
    destruct (JSON_parse data) as [[| | | | | |ms]|]; try done.
    destruct (own ms "number") as [[]|]; done. }
  destruct (String.eqb type "error"); [done|].
  destruct (String.eqb type "open"); [done|].
  by rewrite ClientFacts.exec_ret.
Qed.

(** The listener of a [counter] message reads the counter of the state
    it starts from, and nothing else of it. *)
Lemma listener_counter_message w1 w2 i :
  is_counter_message i = true ->
  counter (view w1) = counter (view w2) ->
  counter (view (exec (listener JSON_parse i) w1)) =
    counter (view (exec (listener JSON_parse i) w2)) /\
  randomNumber (view (exec (listener JSON_parse i) w2)) = randomNumber (view w2) /\
  source_closed (exec (listener JSON_parse i) w2) = source_closed w2.
Proof.
  destruct i as [| |type data|]; cbn [is_counter_message]; intros Hi Hcnt; try done.
  cbn [listener]. rewrite Hi.
  assert (String.eqb type "connected" = false) as ->.
  { apply String.eqb_eq in Hi. by subst. }
  rewrite ClientFacts.on_counter_cases.
  destruct (JSON_parse data) as [[| | | | | |ms]|]; try done.
  destruct (own ms "count") as [[]|]; done.
Qed.

Lemma counter_of_counter_messages l : forall w1 w2,
  counter (view w1) = counter (view w2) ->
  source_closed w2 = false ->
  renderable (randomNumber (view w2)) = true ->
  source_closed (page_run JSON_parse w1 l) = false ->
  counter (view (page_run JSON_parse w1 l)) =
    counter (view (page_run JSON_parse w2 (List.filter is_counter_message l))) /\
  source_closed (page_run JSON_parse w2 (List.filter is_counter_message l)) = false.
Proof.
  induction l as [|i l IH]; intros w1 w2 Hcnt Hc2 Hr2 Hlive; [done|].
  cbn [page_run fold_left] in Hlive |- *.
  fold (page_run JSON_parse (page_step JSON_parse w1 i) l) in Hlive |- *.
  assert (Hl1 : source_closed (page_step JSON_parse w1 i) = false).
  { destruct (source_closed (page_step JSON_parse w1 i)) eqn:E; [|done].
    rewrite page_run_closed in Hlive by done. congruence. }
  destruct (page_step_live w1 i Hl1) as (Hc1 & Hu & Hs1 & Hr1).
  cbn [List.filter]. destruct (is_counter_message i) eqn:Hi.
  - cbn [page_run fold_left].
    fold (page_run JSON_parse (page_step JSON_parse w2 i) (List.filter is_counter_message l)).
    destruct (listener_counter_message w1 w2 i Hi Hcnt) as (Hcnt' & Hrn & Hcl).
    assert (Hs2 : page_step JSON_parse w2 i = exec (listener JSON_parse i) w2).
    { unfold page_step.
      assert (Hd : deliver JSON_parse w2 i = exec (listener JSON_parse i) w2).
      { destruct i; cbn [deliver]; rewrite ?Hc2; done. }
      rewrite Hd. unfold renders. rewrite Hrn, Hr2, <- Hcnt'.
      unfold renders in Hr1. apply andb_prop in Hr1 as [-> _]. done. }
    apply IH; rewrite ?Hs1, ?Hs2; try congruence.
  - apply IH; try done.
    rewrite Hs1, listener_other_counter by done. done.
Qed.

(** X10: The counter shown depends on the [counter] messages alone: on a
    page that is still there after a sequence of events, it is what it
    would be had the [counter] messages among them arrived with nothing
    in between, no transport event and no message of another type,
    malformed or not. *)
Theorem counter_independent l :
  source_closed (page_run JSON_parse mounted l) = false ->
  counter (view (page_run JSON_parse mounted l)) =
    counter (view (page_run JSON_parse mounted (List.filter is_counter_message l))).
Proof.
  intros Hlive. by apply (counter_of_counter_messages l mounted mounted).
Qed.

End Page.

Lemma counter_independent_witness :
  let l := [Open;
            Message "counter" (JSON.stringify (JObject [("count", JInteger 1)]));
            Message "random" "not json";
            Message "error" "x";
            Message "counter" (JSON.stringify (JObject [("count", JInteger 2)]));
            Message "random" "null"] in
  source_closed (page_run JsonText.parse mounted l) = false /\
  counter (view (page_run JsonText.parse mounted l)) =
    counter (view (page_run JsonText.parse mounted (List.filter is_counter_message l))).
Proof.
  cbn zeta. split; [by vm_compute|].
  apply (counter_independent JsonText.parse). by vm_compute.
Defined.

(** An object where a count is expected: the listener sets it, the
    render throws, the page is unmounted and its source closed; the
    count that follows is not shown. *)
Example render_throws :
  let w := page_run JsonText.parse mounted
             [Open;
              Message "counter" (JSON.stringify (JObject [("count", JInteger 1)]));
              Message "random" "{}";
              Message "random" (JSON.stringify (JObject [("number", JObject [])]));
              Message "counter" (JSON.stringify (JObject [("count", JInteger 2)]))] in
  source_closed w = true /\ counter (view w) = vNumber (JsNumber.of_Z 1).
Proof. by vm_compute. Qed.

(** *** The page on a stream of the server *)

Lemma deliver_counter n w :
  0 <= n -> source_closed w = false ->
  deliver JsonText.parse w
    (Message "counter" (JSON.stringify (Server.payload (Server.counterEv n)))) =
  apply (setCounter (vNumber (JsNumber.of_Z n))) w.
Proof.
  intros Hn Hc. cbn [deliver]. rewrite Hc.
  change (listener JsonText.parse (Message "counter" ?d)) with (on_counter JsonText.parse d).
  rewrite ClientFacts.on_counter_cases. cbn [Server.payload].
  rewrite WireFacts.parse_member by auto. reflexivity.
Qed.

Lemma deliver_random n w :
  0 <= n -> source_closed w = false ->
  deliver JsonText.parse w
    (Message "random" (JSON.stringify (Server.payload (Server.randomEv (JInteger n))))) =
  apply (setRandomNumber (vNumber (JsNumber.of_Z n))) w.
Proof.
  intros Hn Hc. cbn [deliver]. rewrite Hc.
  change (listener JsonText.parse (Message "random" ?d)) with (on_random JsonText.parse d).
  rewrite ClientFacts.on_random_cases. cbn [Server.payload].
  rewrite WireFacts.parse_member by auto. reflexivity.
Qed.

Lemma deliver_all_cons w i l :
  deliver_all JsonText.parse w (i :: l) =
    deliver_all JsonText.parse (deliver JsonText.parse w i) l.
Proof. reflexivity. Qed.

Lemma dispatched_cons e es :
  dispatched (e :: es) =
    Message (Server.name e) (JSON.stringify (Server.payload e)) :: dispatched es.
Proof. reflexivity. Qed.

Lemma deliver_emitted h : forall n w,
  0 <= n ->
  Forall (fun rnd => JsNumber.is_random rnd = true) (Server.draws h) ->
  source_closed w = false ->
  counter (view w) = vNumber (JsNumber.of_Z n) ->
  let w' := deliver_all JsonText.parse w (dispatched (Server.emitted n h)) in
  uncaught w' = uncaught w /\ console w' = console w /\
  connectionStatus (view w') = connectionStatus (view w) /\
  error (view w') = error (view w) /\
  counter (view w') = vNumber (JsNumber.of_Z (Server.counter_after n h)) /\
  randomNumber (view w') =
    match last (Server.numbers (Server.emitted n h)) with
    | Some v => Wire.js_of v
    | None => randomNumber (view w)
    end.
Proof.
  induction h as [|[| |rnd|] h IH]; intros n w Hn Hd Hc Hcnt;
    cbn [Server.emitted Server.counter_after]; try (by apply IH).
  - done.
  - assert (Hn' : 0 <= JsNumber.incr n) by (unfold JsNumber.incr; case_match; lia).
    rewrite dispatched_cons, deliver_all_cons. cbn [Server.name].
    rewrite (deliver_counter _ w Hn' Hc).
    change (Server.numbers (Server.counterEv ?c :: ?l)) with (Server.numbers l).
    apply (IH (JsNumber.incr n) (apply (setCounter (vNumber (JsNumber.of_Z (JsNumber.incr n)))) w));
      done.
  - change (Server.draws (Server.cRandom ?v :: ?l)) with (v :: Server.draws l) in Hd.
    inversion Hd as [|? ? Hr Hd']; subst.
    destruct (ServerFacts.sample_range rnd Hr) as (m & Hm & Hrange).
    rewrite Hm.
    rewrite dispatched_cons, deliver_all_cons. cbn [Server.name].
    rewrite (deliver_random m w) by (done || lia).
    change (Server.numbers (Server.randomEv ?c :: ?l)) with (c :: Server.numbers l).
    rewrite last_cons.
    destruct (IH n (apply (setRandomNumber (vNumber (JsNumber.of_Z m))) w))
      as (H1 & H2 & H3 & H4 & H5 & H6); try done.
    cbn zeta. split_and!; try done.
    rewrite H6. by destruct (last _).
Qed.

(** X11: End to end: the events an [EventSource] dispatches for what the
    server has written to a connection are all handled without an
    exception; the page is then [Connected] with no error, has logged the
    greeting, shows in [counter] the Number of the server's own
    [counter], and in [randomNumber] the last number written (0 when
    there is none yet). *)
Theorem page_follows_stream evs s rq k :
  Server.run Server.init evs = Some s -> Server.conns s !! rq = Some k ->
  exists es,
    Server.body (Server.res k) = flat_map Server.frame es /\
    let w := deliver_all JsonText.parse mounted (Open :: dispatched es) in
    uncaught w = [] /\
    console w = [console_log (vString "Connected to event stream")] /\
    connectionStatus (view w) = "Connected"%string /\
    error (view w) = None /\
    counter (view w) = vNumber (JsNumber.of_Z (Server.counter k)) /\
    randomNumber (view w) =
      match last (Server.numbers es) with
      | Some v => Wire.js_of v
      | None => vNumber (JsNumber.of_Z 0)
      end.
Proof.
  intros Hrun Hk.
  destruct (ServerFacts.stream_of _ _ _ _ Hrun Hk) as (h & Hh & Hb & Hc & _).
  pose proof (ServerFacts.history_draws rq _ _ _ Hrun) as Hd. rewrite Hh in Hd.
  exists (Server.connected :: Server.emitted 0 h). split; [done|].
  set (w0 := deliver_all JsonText.parse mounted [Open; Message "connected"
               (JSON.stringify (Server.payload Server.connected))]).
  change (deliver_all JsonText.parse mounted
            (Open :: dispatched (Server.connected :: Server.emitted 0 h)))
    with (deliver_all JsonText.parse w0 (dispatched (Server.emitted 0 h))).
  destruct (deliver_emitted h 0 w0) as (H1 & H2 & H3 & H4 & H5 & H6); try done.
  cbn zeta. rewrite H1, H2, H3, H4, H5, H6, Hc.
  change (Server.numbers (Server.connected :: ?l)) with (Server.numbers l).
  split_and!; try done; by vm_compute.
Qed.

Lemma page_follows_stream_witness :
  exists s k es,
    Server.run Server.init Server.demo = Some s /\ Server.conns s !! 0%nat = Some k /\
    Server.body (Server.res k) = flat_map Server.frame es /\
    let w := deliver_all JsonText.parse mounted (Open :: dispatched es) in
    uncaught w = [] /\
    console w = [console_log (vString "Connected to event stream")] /\
    connectionStatus (view w) = "Connected"%string /\
    error (view w) = None /\
    counter (view w) = vNumber (JsNumber.of_Z (Server.counter k)) /\
    randomNumber (view w) =
      match last (Server.numbers es) with
      | Some v => Wire.js_of v
      | None => vNumber (JsNumber.of_Z 0)
      end.
Proof.
  assert (Hrun : exists s k, Server.run Server.init Server.demo = Some s /\
                             Server.conns s !! 0%nat = Some k).
  { eexists _, _. split; vm_compute; reflexivity. }
  destruct Hrun as (s & k & Hrun & Hk).
  destruct (page_follows_stream Server.demo s 0%nat k Hrun Hk) as (es & H).
  exists s, k, es. auto.
Defined.

End PageFacts.

(** * The polling page *)

Module PollingFacts.
Import Polling.

Lemma run_cons w ev evs : run w (ev :: evs) = run (step w ev) evs.
Proof. reflexivity. Qed.

Lemma unmounted_step w ev :
  isMounted w = false -> interval w = false ->
  view (step w ev) = view w /\ isMounted (step w ev) = false /\
  interval (step w ev) = false /\ (pending (step w ev) <= pending w)%nat.
Proof.
  destruct w as [[d ld er] m i p]; cbn. intros -> ->.
  destruct ev as [|o|]; cbn; [split_and!; done| |split_and!; done].
  destruct p as [|p]; cbn; [split_and!; done|].
  destruct o; cbn; split_and!; (done || lia).
Qed.

(** X12: After the unmount nothing is set any more: whatever happens next,
    a call that was waiting settling with any outcome included, the
    three state values stay as they were, no new call of [fetchData]
    starts, and the interval stays cleared. *)
Theorem unmounted_is_inert evs : forall w,
  view (run (cleanup w) evs) = view w /\
  isMounted (run (cleanup w) evs) = false /\
  interval (run (cleanup w) evs) = false /\
  (pending (run (cleanup w) evs) <= pending w)%nat.
Proof.
  assert (H : forall w, isMounted w = false -> interval w = false ->
     view (run w evs) = view w /\ isMounted (run w evs) = false /\
     interval (run w evs) = false /\ (pending (run w evs) <= pending w)%nat).
  { induction evs as [|ev evs IH]; intros w Hm Hi; [split_and!; done|].
    rewrite run_cons.
    destruct (unmounted_step w ev Hm Hi) as (Hv & Hm' & Hi' & Hp).
    destruct (IH (step w ev) Hm' Hi') as (Hv2 & Hm2 & Hi2 & Hp2).
    split_and!; try done; [congruence|lia]. }
  intros w. apply (H (cleanup w)); reflexivity.
Qed.

Lemma step_invariant w ev :
  isMounted w = interval w ->
  (loading (view w) = true -> error (view w) = None) ->
  (isMounted w = true -> loading (view w) = true -> (0 < pending w)%nat) ->
  isMounted (step w ev) = interval (step w ev) /\
  (loading (view (step w ev)) = true -> error (view (step w ev)) = None) /\
  (isMounted (step w ev) = true -> loading (view (step w ev)) = true ->
     (0 < pending (step w ev))%nat).
Proof.
  destruct w as [[d ld er] m i p]; cbn. intros -> H2 H3.
  destruct ev as [|o|]; cbn.
  - destruct i; cbn; split_and!; (done || lia).
  - destruct p as [|p]; cbn; [split_and!; done|].
    destruct i, o; cbn; split_and!; (done || auto).
  - split_and!; done.
Qed.

(** X13: While the page lives: [isMounted] holds exactly as long as the
    interval is set; [Loading...] and the error line are never shown
    together; and while the page is mounted, [Loading...] is shown only
    if a call of [fetchData] is really waiting. *)
Theorem loading_is_honest evs :
  let w := run mounted evs in
  isMounted w = interval w /\
  (loading (view w) = true -> error (view w) = None) /\
  (isMounted w = true -> loading (view w) = true -> (0 < pending w)%nat).
Proof.
  cbn zeta.
  assert (H : forall w, isMounted w = interval w ->
     (loading (view w) = true -> error (view w) = None) ->
     (isMounted w = true -> loading (view w) = true -> (0 < pending w)%nat) ->
     isMounted (run w evs) = interval (run w evs) /\
     (loading (view (run w evs)) = true -> error (view (run w evs)) = None) /\
     (isMounted (run w evs) = true -> loading (view (run w evs)) = true ->
        (0 < pending (run w evs))%nat)).
  { induction evs as [|ev evs IH]; intros w H1 H2 H3; [done|].
    rewrite run_cons.
    destruct (step_invariant w ev H1 H2 H3) as (H1' & H2' & H3'). by apply IH. }
  apply H; cbn; (done || lia).
Qed.

Lemma step_data w ev :
  data (view (step w ev)) = data (view w) \/
  exists json, ev = Settle (Parsed json) /\ data (view (step w ev)) = json.
Proof.
  destruct w as [[d ld er] m i p].
  destruct ev as [|o|]; cbn.
  - left. by destruct i.
  - destruct p as [|p]; [by left|].
    destruct m, o; cbn; eauto.
  - by left.
Qed.

(** X14: The data shown is the body of a response that was read
    successfully, or what it was before: a poll that fails, by a
    response that is not [ok] or by a rejection, never clears or
    replaces it. *)
Theorem data_from_responses evs : forall w,
  data (view (run w evs)) = data (view w) \/
  exists json, In (Settle (Parsed json)) evs /\ data (view (run w evs)) = json.
Proof.
  induction evs as [|ev evs IH]; intros w; [by left|].
  rewrite run_cons.
  destruct (IH (step w ev)) as [Hsame|(json & Hin & Hj)].
  - destruct (step_data w ev) as [Hs|(json & -> & Hj)].
    + left. congruence.
    + right. exists json. split; [by left|congruence].
  - right. exists json. split; [by right|done].
Qed.

End PollingFacts.

(** * Routes and navigation *)

Module RoutingFacts.
Import Routing.

(** X16: In [main-nav.tsx] each flag is read by the link after the one it
    is named for. Where the location matches at most one of the five
    patterns in play, a link other than [Home] that is highlighted does
    not lead to the location shown: [Polling Demo] is highlighted at
    [/components], [Components] at [/code-example] and [Code Examples]
    at [/settings]. *)
Theorem MainNav_highlight (matches : string -> bool) l :
  (forall p q,
     In p ["/"; "/polling-demo"; "/components"; "/code-example"; "/settings"]%string ->
     In q ["/"; "/polling-demo"; "/components"; "/code-example"; "/settings"]%string ->
     matches p = true -> matches q = true -> p = q) ->
  In l (MainNav matches) -> href l <> "/"%string -> active l = true ->
  matches (href l) = false /\
  ((href l = "/polling-demo"%string /\ matches "/components" = true) \/
   (href l = "/components"%string /\ matches "/code-example" = true) \/
   (href l = "/code-example"%string /\ matches "/settings" = true)).
Proof.
  intros Hex Hin Hh Ha. unfold MainNav in Hin. cbn [In] in Hin.
  destruct Hin as [<-|[<-|[<-|[<-|[]]]]]; cbn [href active] in *; try done.
  - split; [|auto]. destruct (matches "/polling-demo") eqn:E; [|done].
    assert ("/polling-demo" = "/components")%string by (apply Hex; cbn; auto 10). done.
  - split; [|auto]. destruct (matches "/components") eqn:E; [|done].
    assert ("/components" = "/code-example")%string by (apply Hex; cbn; auto 10). done.
  - split; [|auto 10]. destruct (matches "/code-example") eqn:E; [|done].
    assert ("/code-example" = "/settings")%string by (apply Hex; cbn; auto 10). done.
Qed.

Lemma at_path_exclusive loc p q :
  at_path loc p = true -> at_path loc q = true -> p = q.
Proof. unfold at_path. intros ?%String.eqb_eq ?%String.eqb_eq. congruence. Qed.

Lemma MainNav_highlight_witness :
  let l := mkNavLink "/polling-demo" "Polling Demo" true in
  In l (MainNav (at_path "/components")) /\
  at_path "/components" (href l) = false /\
  ((href l = "/polling-demo"%string /\ at_path "/components" "/components" = true) \/
   (href l = "/components"%string /\ at_path "/components" "/code-example" = true) \/
   (href l = "/code-example"%string /\ at_path "/components" "/settings" = true)).
Proof.
  cbn zeta. split; [right; by left|].
  apply (MainNav_highlight (at_path "/components")
           (mkNavLink "/polling-demo" "Polling Demo" true)).
  - intros p q _ _. apply at_path_exclusive.
  - right. by left.
  - done.
  - reflexivity.
Defined.

(** The other [MainNav] highlights each link exactly at the location the
    link leads to. *)
Theorem MainNav_dashboard_highlight (matches : string -> bool) l :
  In l (MainNav_dashboard matches) -> active l = matches (href l).
Proof.
  unfold MainNav_dashboard. cbn [In].
  intros [<-|[<-|[<-|[<-|[]]]]]; reflexivity.
Qed.

Lemma MainNav_dashboard_highlight_witness :
  active (mkNavLink "/components" "Components" true) = at_path "/components" "/components".
Proof.
  apply (MainNav_dashboard_highlight (at_path "/components")
           (mkNavLink "/components" "Components" true)).
  right. by left.
Defined.

(** X17: Where the links lead: every link of [main-nav.tsx] leads to a page
    of the router, whatever the location it is shown at; of the other
    [MainNav], the link to [/settings], and that link alone, leads to
    [NotFound]. *)
Theorem nav_targets (matches : string -> bool) l :
  (In l (MainNav matches) -> target l <> NotFound) /\
  (In l (MainNav_dashboard matches) ->
     (target l = NotFound <-> href l = "/settings"%string)).
Proof.
  split.
  - unfold MainNav. cbn [In]. intros [<-|[<-|[<-|[<-|[]]]]]; by vm_compute.
  - unfold MainNav_dashboard. cbn [In].
    intros [<-|[<-|[<-|[<-|[]]]]]; vm_compute; split; done.
Qed.

End RoutingFacts.
